(** * Call-room registry and signaling relay (config/socket)

    A shallow embedding of the Socket.IO handlers of the voice-call server:
    the two module-level maps [callRooms] and [socketToUser], the handlers
    registered for every connection, and [handleUserLeave].

    The handlers are functions from the registry to a new registry and the
    list of Socket.IO calls they issue, in program order.  Delivery of an
    emitted event to the sockets of a Socket.IO room is the library's work
    and is not part of the embedding: an emission is recorded with the
    addressing the code wrote ([socket.emit], [socket.to(room).emit],
    [io.to(room).emit]).  Logging and the ICE-server greeting sent on
    connection are left out.  A payload is an object whose string fields
    hold a string or are missing; other payloads are outside the
    embedding. *)

From Stdlib Require Import ZArith String.
From stdpp Require Import base option strings pretty list gmap.

Local Open Scope string_scope.

(** ** Values *)

(** The values a client can put in the [signal] field ([unknown] in the
    source), as far as the presence test [!signal] tells them apart. *)
Inductive JsValue :=
| JsUndefined
| JsNull
| JsBool (b : bool)
| JsNumber (n : Z)
| JsString (s : string)
| JsObject (repr : string).

#[global] Instance JsValue_eq_dec : EqDecision JsValue.
Proof. solve_decision. Defined.

(** JavaScript truthiness: [!v] is [negb (truthy v)]. *)
Definition truthy (v : JsValue) : bool :=
  match v with
  | JsUndefined | JsNull => false
  | JsBool b => b
  | JsNumber n => negb (n =? 0)%Z
  | JsString s => negb (String.eqb s "")
  | JsObject _ => true
  end.

(** A string field of a payload: [None] when the field is missing.  The
    test [!field] holds for a missing field and for the empty string;
    [truthy_string] returns the string when the test fails. *)
Definition truthy_string (field : option string) : option string :=
  match field with
  | Some s => if String.eqb s "" then None else Some s
  | None => None
  end.

(** [x || 'Anonymous'] *)
Definition or_default (field : option string) (d : string) : string :=
  match truthy_string field with
  | Some s => s
  | None => d
  end.

(** ** Data model (types/index) *)

Record CallParticipant := mkCallParticipant {
  socketId : string;
  userId : string;
  meetingId : string;
  peerId : string;
  username : string;
  isMuted : bool;
  isVideoOn : bool;
  joinedAt : string;
}.

#[global] Instance CallParticipant_eq_dec : EqDecision CallParticipant.
Proof. solve_decision. Defined.

Record JoinCallPayload := mkJoinCallPayload {
  jp_meetingId : option string;
  jp_userId : option string;
  jp_peerId : option string;
  jp_username : option string;
}.

Record LeaveCallPayload := mkLeaveCallPayload {
  lp_meetingId : option string;
  lp_userId : option string;
}.

Record SignalPayload := mkSignalPayload {
  sp_meetingId : option string;
  sp_fromUserId : option string;
  sp_toUserId : option string;
  sp_fromPeerId : option string;
  sp_toPeerId : option string;
  sp_signal : JsValue;
  sp_signalType : option string;
}.

(** [MutePayload] and [VideoPayload] have the same two fields. *)
Record MutePayload := mkMutePayload {
  mp_meetingId : option string;
  mp_userId : option string;
}.

(** One entry of the [participants] array of a peers-list response. *)
Record PeerEntry := mkPeerEntry {
  pe_userId : string;
  pe_peerId : string;
  pe_username : string;
  pe_isMuted : bool;
  pe_isVideoOn : bool;
  pe_joinedAt : string;
}.

#[global] Instance PeerEntry_eq_dec : EqDecision PeerEntry.
Proof. solve_decision. Defined.

(** Events the server emits, with their payloads. *)
Inductive Outgoing :=
| ERROR (message code : string)
| PEERS_LIST (meeting : string) (participants : list PeerEntry) (count : nat)
| PEER_JOINED (user peer name timestamp : string)
| PEER_LEFT (user peer name timestamp : string)
| SIGNAL (meeting : string) (fromUserId : option string) (toUserId : string)
         (fromPeerId toPeerId : option string) (signal : JsValue)
         (signalType : option string)
| MUTE_STATUS (user name : string) (muted : bool) (timestamp : string)
| VIDEO_STATUS (user name : string) (videoOn : bool) (timestamp : string).

#[global] Instance Outgoing_eq_dec : EqDecision Outgoing.
Proof. solve_decision. Defined.

(** The Socket.IO calls of a handler.  [socket_emit sid] is [socket.emit]
    on the connection [sid]; [socket_to_emit sid room] is
    [socket.to(room).emit] (the room without [sid]); [io_to_emit room] is
    [io.to(room).emit].  Socket.IO puts every connection in a room named by
    its own identifier, which is what [io.to(p.socketId)] addresses. *)
Inductive Effect :=
| socket_emit (sid : string) (ev : Outgoing)
| socket_to_emit (sid room : string) (ev : Outgoing)
| io_to_emit (room : string) (ev : Outgoing)
| socket_join (sid room : string)
| socket_leave (sid room : string).

#[global] Instance Effect_eq_dec : EqDecision Effect.
Proof. solve_decision. Defined.

(** The two module-level maps. *)
Record Registry := mkRegistry {
  callRooms : gmap string (gmap string CallParticipant);
  socketToUser : gmap string (string * string);
}.

#[global] Instance Registry_eq_dec : EqDecision Registry.
Proof. solve_decision. Defined.

Definition initial : Registry := mkRegistry ∅ ∅.

(** [callRooms.get(m)?.get(u)] *)
Definition participant_of (st : Registry) (m u : string) : option CallParticipant :=
  callRooms st !! m ≫= λ room, room !! u.

(** The readings of the clock inside one handler: [now k] is the result of
    its [k]-th [new Date().toISOString()]. *)
Definition Clock := nat → string.

(** ** Handlers *)

Definition with_connection (p : CallParticipant) (sid peer : string) : CallParticipant :=
  mkCallParticipant sid (userId p) (meetingId p) peer (username p)
                    (isMuted p) (isVideoOn p) (joinedAt p).

Definition with_isMuted (p : CallParticipant) (b : bool) : CallParticipant :=
  mkCallParticipant (socketId p) (userId p) (meetingId p) (peerId p) (username p)
                    b (isVideoOn p) (joinedAt p).

Definition with_isVideoOn (p : CallParticipant) (b : bool) : CallParticipant :=
  mkCallParticipant (socketId p) (userId p) (meetingId p) (peerId p) (username p)
                    (isMuted p) b (joinedAt p).

Definition peer_entry (p : CallParticipant) : PeerEntry :=
  mkPeerEntry (userId p) (peerId p) (username p) (isMuted p) (isVideoOn p) (joinedAt p).

(** [Array.from(room.values()).filter(p => p.userId !== userId).map(...)].
    A JavaScript [Map] lists its values in insertion order; a [gmap] does
    not record that order, so the order of this list is not the source's. *)
Definition otherParticipants (room : gmap string CallParticipant) (user : string) : list PeerEntry :=
  peer_entry <$> filter (λ p, userId p ≠ user) (snd <$> map_to_list room).

Section handlers.

(** [parseInt(process.env.MAX_PARTICIPANTS || '10', 10)]: a number, or
    [None] for NaN. *)
Context (MAX_PARTICIPANTS : option Z).

(** [room.size >= MAX_PARTICIPANTS]; a comparison with NaN is false. *)
Definition room_is_full (room : gmap string CallParticipant) : bool :=
  match MAX_PARTICIPANTS with
  | Some n => bool_decide (n ≤ Z.of_nat (size room))%Z
  | None => false
  end.

Definition room_full_message : string :=
  "Call is full (maximum "
    +:+ match MAX_PARTICIPANTS with Some n => pretty n | None => "NaN" end
    +:+ " participants)".

Definition on_join (sid : string) (now : Clock) (payload : JoinCallPayload)
           (st : Registry) : Registry * list Effect :=
  match truthy_string (jp_meetingId payload),
        truthy_string (jp_userId payload),
        truthy_string (jp_peerId payload) with
  | Some meeting, Some user, Some peer =>
      (* get or create the call room *)
      let '(room, rooms) :=
        match callRooms st !! meeting with
        | Some room => (room, callRooms st)
        | None => (∅, <[meeting := ∅]> (callRooms st))
        end in
      if room_is_full room then
        (mkRegistry rooms (socketToUser st),
         [socket_emit sid (ERROR room_full_message "ROOM_FULL")])
      else
        let '(room', reads) :=
          match room !! user with
          | Some existingParticipant =>
              (<[user := with_connection existingParticipant sid peer]> room, 0)
          | None =>
              (<[user := mkCallParticipant sid user meeting peer
                           (or_default (jp_username payload) "Anonymous")
                           true false (now 0)]> room, 1)
          end in
        (mkRegistry (<[meeting := room']> rooms)
                    (<[sid := (meeting, user)]> (socketToUser st)),
         let others := otherParticipants room' user in
         [socket_join sid meeting;
          socket_emit sid (PEERS_LIST meeting others (length others));
          socket_to_emit sid meeting
            (PEER_JOINED user peer (or_default (jp_username payload) "Anonymous")
                         (now reads))])
  | _, _, _ =>
      (st, [socket_emit sid
              (ERROR "Meeting ID, User ID, and Peer ID are required" "INVALID_PAYLOAD")])
  end.

Definition on_signal (sid : string) (payload : SignalPayload)
           (st : Registry) : Registry * list Effect :=
  match truthy_string (sp_meetingId payload),
        truthy_string (sp_toUserId payload),
        truthy (sp_signal payload) with
  | Some meeting, Some toUser, true =>
      match callRooms st !! meeting with
      | None =>
          (st, [socket_emit sid (ERROR "Call room not found" "ROOM_NOT_FOUND")])
      | Some room =>
          match room !! toUser with
          | None =>
              (st, [socket_emit sid
                      (ERROR "Target user not found in call" "USER_NOT_FOUND")])
          | Some targetParticipant =>
              let userInfo := socketToUser st !! sid in
              let senderParticipant := userInfo ≫= λ info, room !! info.2 in
              (st, [io_to_emit (socketId targetParticipant)
                      (SIGNAL meeting (snd <$> userInfo) toUser
                              (peerId <$> senderParticipant)
                              (sp_toPeerId payload) (sp_signal payload)
                              (sp_signalType payload))])
          end
      end
  | _, _, _ =>
      (st, [socket_emit sid (ERROR "Invalid signal payload" "INVALID_SIGNAL")])
  end.

(** The bodies of the mute and unmute handlers differ in the constant
    they store and broadcast only; [muted] is that constant. *)
Definition on_set_mute (muted : bool) (sid : string) (now : Clock)
           (payload : MutePayload) (st : Registry) : Registry * list Effect :=
  match truthy_string (mp_meetingId payload), truthy_string (mp_userId payload) with
  | Some meeting, Some user =>
      match callRooms st !! meeting with
      | None => (st, [])
      | Some room =>
          match room !! user with
          | None => (st, [])
          | Some participant =>
              (mkRegistry
                 (<[meeting := <[user := with_isMuted participant muted]> room]>
                    (callRooms st))
                 (socketToUser st),
               [io_to_emit meeting
                  (MUTE_STATUS user (username participant) muted (now 0))])
          end
      end
  | _, _ => (st, [])
  end.

Definition on_mute := on_set_mute true.
Definition on_unmute := on_set_mute false.

(** Likewise for video-on and video-off. *)
Definition on_set_video (videoOn : bool) (sid : string) (now : Clock)
           (payload : MutePayload) (st : Registry) : Registry * list Effect :=
  match truthy_string (mp_meetingId payload), truthy_string (mp_userId payload) with
  | Some meeting, Some user =>
      match callRooms st !! meeting with
      | None => (st, [])
      | Some room =>
          match room !! user with
          | None => (st, [])
          | Some participant =>
              (mkRegistry
                 (<[meeting := <[user := with_isVideoOn participant videoOn]> room]>
                    (callRooms st))
                 (socketToUser st),
               [io_to_emit meeting
                  (VIDEO_STATUS user (username participant) videoOn (now 0))])
          end
      end
  | _, _ => (st, [])
  end.

Definition on_video_on := on_set_video true.
Definition on_video_off := on_set_video false.

Definition handleUserLeave (sid : string) (now : Clock)
           (meeting user : option string) (st : Registry) : Registry * list Effect :=
  match truthy_string meeting, truthy_string user with
  | Some meeting, Some user =>
      match callRooms st !! meeting with
      | None => (st, [])
      | Some room =>
          match room !! user with
          | None => (st, [])
          | Some participant =>
              let room' := delete user room in
              (mkRegistry
                 (if bool_decide (size room' = 0)
                  then delete meeting (callRooms st)
                  else <[meeting := room']> (callRooms st))
                 (delete sid (socketToUser st)),
               [socket_leave sid meeting;
                io_to_emit meeting
                  (PEER_LEFT user (peerId participant) (username participant) (now 0))])
          end
      end
  | _, _ => (st, [])
  end.

Definition on_leave (sid : string) (now : Clock) (payload : LeaveCallPayload)
           (st : Registry) : Registry * list Effect :=
  handleUserLeave sid now (lp_meetingId payload) (lp_userId payload) st.

Definition on_disconnect (sid : string) (now : Clock)
           (st : Registry) : Registry * list Effect :=
  match socketToUser st !! sid with
  | Some userInfo => handleUserLeave sid now (Some userInfo.1) (Some userInfo.2) st
  | None => (st, [])
  end.

(** An event arriving on a connection. *)
Inductive Inbound :=
| Join (payload : JoinCallPayload)
| Signal (payload : SignalPayload)
| Mute (payload : MutePayload)
| Unmute (payload : MutePayload)
| VideoOn (payload : MutePayload)
| VideoOff (payload : MutePayload)
| Leave (payload : LeaveCallPayload)
| Disconnect.

Definition handle (sid : string) (now : Clock) (ev : Inbound)
           (st : Registry) : Registry * list Effect :=
  match ev with
  | Join p => on_join sid now p st
  | Signal p => on_signal sid p st
  | Mute p => on_mute sid now p st
  | Unmute p => on_unmute sid now p st
  | VideoOn p => on_video_on sid now p st
  | VideoOff p => on_video_off sid now p st
  | Leave p => on_leave sid now p st
  | Disconnect => on_disconnect sid now st
  end.

(** The server handles one event to completion before the next. *)
Fixpoint run (evs : list (string * Clock * Inbound)) (st : Registry) : Registry :=
  match evs with
  | [] => st
  | (sid, now, ev) :: evs' => run evs' (handle sid now ev st).1
  end.

Inductive reachable : Registry → Prop :=
| reachable_initial : reachable initial
| reachable_step st sid now ev :
    reachable st → reachable (handle sid now ev st).1.

End handlers.

(** ** Notions used by the statements *)

(** The handler answered with a single error event to the caller. *)
Definition is_error_reply (effs : list Effect) : bool :=
  match effs with
  | [socket_emit _ (ERROR _ _)] => true
  | _ => false
  end.

(** Every entry of the connection index names a participant that exists and
    whose [socketId] is the key of the entry. *)
Definition index_consistent (st : Registry) : Prop :=
  map_Forall (λ sid (info : string * string),
                socketId <$> participant_of st info.1 info.2 = Some sid)
             (socketToUser st).

#[global] Instance index_consistent_dec st : Decision (index_consistent st).
Proof. unfold index_consistent. apply _. Defined.

(** How one event changes the set of userIds that have joined room [m] and
    not left it since: a join naming [m] adds its user unless the handler
    answered it with an error; a leave naming [m] removes its user. *)
Definition track_member (m : string) (ev : Inbound) (reply : list Effect)
           (acc : gset string) : gset string :=
  match ev with
  | Join p =>
      match truthy_string (jp_meetingId p), truthy_string (jp_userId p) with
      | Some m', Some u =>
          if decide (m' = m)
          then (if is_error_reply reply then acc else {[u]} ∪ acc)
          else acc
      | _, _ => acc
      end
  | Leave p =>
      match truthy_string (lp_meetingId p), truthy_string (lp_userId p) with
      | Some m', Some u => if decide (m' = m) then acc ∖ {[u]} else acc
      | _, _ => acc
      end
  | _ => acc
  end.

(** The userIds that have joined room [m] and not left it since, along a
    run that starts in [st] with the set [acc]. *)
Fixpoint joined_not_left (MAX : option Z) (m : string)
         (evs : list (string * Clock * Inbound)) (st : Registry)
         (acc : gset string) : gset string :=
  match evs with
  | [] => acc
  | (sid, now, ev) :: evs' =>
      joined_not_left MAX m evs' (handle MAX sid now ev st).1
                      (track_member m ev (handle MAX sid now ev st).2 acc)
  end.

Definition is_join_or_leave (ev : Inbound) : bool :=
  match ev with
  | Join _ | Leave _ => true
  | _ => false
  end.

(** The members of room [m]: the keys of its map, none when it is absent. *)
Definition members (st : Registry) (m : string) : gset string :=
  dom (default ∅ (callRooms st !! m)).

Definition room_size (st : Registry) (m : string) : nat :=
  size (default ∅ (callRooms st !! m)).

(** The invariant of room [m]: its members are the set [acc], and it is not
    present while empty. *)
Definition room_inv (m : string) (st : Registry) (acc : gset string) : Prop :=
  members st m = acc ∧ callRooms st !! m ≠ Some ∅.

(** ** Concrete runs used in the examples *)

Definition tick : Clock := λ _, "2024-01-01T00:00:00.000Z".

Definition join_as_payload (m u p : string) : JoinCallPayload :=
  mkJoinCallPayload (Some m) (Some u) (Some p) (Some u).

Definition join_as (m u p : string) : Inbound := Join (join_as_payload m u p).

Definition leave_as (m u : string) : Inbound :=
  Leave (mkLeaveCallPayload (Some m) (Some u)).

(** Ten users on ten connections in room "r1". *)
Definition ten_joins : list (string * Clock * Inbound) :=
  [("s0", tick, join_as "r1" "u0" "p0"); ("s1", tick, join_as "r1" "u1" "p1");
   ("s2", tick, join_as "r1" "u2" "p2"); ("s3", tick, join_as "r1" "u3" "p3");
   ("s4", tick, join_as "r1" "u4" "p4"); ("s5", tick, join_as "r1" "u5" "p5");
   ("s6", tick, join_as "r1" "u6" "p6"); ("s7", tick, join_as "r1" "u7" "p7");
   ("s8", tick, join_as "r1" "u8" "p8"); ("s9", tick, join_as "r1" "u9" "p9")].

Definition full_room : Registry := run (Some 10%Z) ten_joins initial.

(** A joins on "s1", then joins again on "s2". *)
Definition after_reconnect : Registry :=
  run (Some 10%Z) [("s1", tick, join_as "r1" "A" "pA");
                   ("s2", tick, join_as "r1" "A" "pA2")] initial.

(** A and B on their own connections. *)
Definition two_users : Registry :=
  run (Some 10%Z) [("sA", tick, join_as "r1" "A" "pA");
                   ("sB", tick, join_as "r1" "B" "pB")] initial.

(** One connection joins as A and then as B. *)
Definition shared_connection : Registry :=
  run (Some 10%Z) [("s1", tick, join_as "r1" "A" "pA");
                   ("s1", tick, join_as "r1" "B" "pB")] initial.

Definition offer_without_sender : SignalPayload :=
  mkSignalPayload (Some "r1") None (Some "A") None (Some "pA")
                  (JsObject "{type:'offer',sdp:'v=0'}") (Some "offer").

(** A and B join room "r1", then A leaves. *)
Definition join_join_leave : list (string * Clock * Inbound) :=
  [("sA", tick, join_as "r1" "A" "pA");
   ("sB", tick, join_as "r1" "B" "pB");
   ("sA", tick, leave_as "r1" "A")].

(** The entries of A and B in [two_users]. *)
Definition entry_A : CallParticipant :=
  mkCallParticipant "sA" "A" "r1" "pA" "A" true false (tick 0).

Definition entry_B : CallParticipant :=
  mkCallParticipant "sB" "B" "r1" "pB" "B" true false (tick 0).


(** The event of the handler that stores [muted]. *)
Definition mute_event (muted : bool) (payload : MutePayload) : Inbound :=
  if muted then Mute payload else Unmute payload.

(** ** Read-only accessors (config/socket) *)

(** [callRooms.size] *)
Definition getActiveCallsCount (st : Registry) : nat := size (callRooms st).

(** [let total = 0; for (const room of callRooms.values()) total += room.size] *)
Definition getTotalUsersInCalls (st : Registry) : nat :=
  foldl (λ total room, total + size room) 0 (snd <$> map_to_list (callRooms st)).

(** One element of the [users] array of a room's information. *)
Record RoomUser := mkRoomUser {
  ru_userId : string;
  ru_username : string;
  ru_isMuted : bool;
  ru_isVideoOn : bool;
}.

Record RoomInfo := mkRoomInfo {
  ri_meetingId : string;
  ri_participants : nat;
  ri_users : list RoomUser;
}.

Definition room_user (p : CallParticipant) : RoomUser :=
  mkRoomUser (userId p) (username p) (isMuted p) (isVideoOn p).

(** [None] is the source's [null].  As for the peers list, the order of
    [users] is the order of [map_to_list], not the insertion order. *)
Definition getCallRoomInfo (st : Registry) (meeting : string) : option RoomInfo :=
  match callRooms st !! meeting with
  | None => None
  | Some room =>
      Some (mkRoomInfo meeting (size room) (room_user <$> (snd <$> map_to_list room)))
  end.

(** ** The room route (routes/callRoutes) *)

(** The three answers of [GET /api/call/room/:meetingId]. *)
Inductive RoomRouteResponse :=
| room_route_bad_request
| room_route_not_found
| room_route_ok (data : RoomInfo).

Definition room_route_status (r : RoomRouteResponse) : Z :=
  match r with
  | room_route_bad_request => 400
  | room_route_not_found => 404
  | room_route_ok _ => 200
  end.

Definition room_route (meetingId : option string) (st : Registry) : RoomRouteResponse :=
  match truthy_string meetingId with
  | None => room_route_bad_request
  | Some meeting =>
      match getCallRoomInfo st meeting with
      | None => room_route_not_found
      | Some roomInfo => room_route_ok roomInfo
      end
  end.

(** ** Error middleware (middlewares/errorHandler) *)

(** An [Error] with the two optional fields of [AppError].  [err_stack] is
    the stack text the runtime attached, if any.  Status codes are
    integers here. *)
Record AppError := mkAppError {
  err_message : string;
  err_statusCode : option Z;
  err_status : option string;
  err_stack : option string;
}.

(** [createError]; [stack] is what [new Error(message)] records. *)
Definition createError (stack : option string) (message : string) (statusCode : Z) : AppError :=
  mkAppError message (Some statusCode)
             (Some (if bool_decide (500 ≤ statusCode)%Z then "error" else "fail"))
             stack.

(** The status and the JSON body sent by [errorHandler]; a missing [stack]
    key is [None]. *)
Record ErrorResponse := mkErrorResponse {
  resp_status : Z;
  resp_success : bool;
  resp_message : string;
  resp_stack : option string;
}.

Definition errorHandler (NODE_ENV : option string) (err : AppError) : ErrorResponse :=
  let statusCode :=
    match err_statusCode err with
    | Some code => if (code =? 0)%Z then 500%Z else code
    | None => 500%Z
    end in
  let message := or_default (Some (err_message err)) "Internal Server Error" in
  mkErrorResponse statusCode false message
                  (if bool_decide (NODE_ENV = Some "production") then None
                   else err_stack err).

(** ** Invariants of the registry *)

(** What every handler keeps true of a room stored under [m]: the keys are
    not empty, an entry stored under [u] names [u] and [m] and has a peerId
    and a username, the size is within the configured maximum, and, when
    that maximum is at least one, the room is not empty. *)
Definition room_ok (MAX : option Z) (m : string)
           (room : gmap string CallParticipant) : Prop :=
  m ≠ ""
  ∧ (∀ u p, room !! u = Some p →
            u ≠ "" ∧ userId p = u ∧ meetingId p = m ∧ peerId p ≠ "" ∧ username p ≠ "")
  ∧ (∀ n, MAX = Some n → (Z.of_nat (size room) ≤ Z.max 0 n)%Z)
  ∧ ((∀ n, MAX = Some n → (1 ≤ n)%Z) → room ≠ ∅).

Definition rooms_ok (MAX : option Z) (st : Registry) : Prop :=
  map_Forall (room_ok MAX) (callRooms st).

(** The events that neither add nor remove a participant. *)
Definition is_status_event (ev : Inbound) : bool :=
  match ev with
  | Signal _ | Mute _ | Unmute _ | VideoOn _ | VideoOff _ => true
  | _ => false
  end.

(** The event of the handler that stores [videoOn]. *)
Definition video_event (videoOn : bool) (payload : MutePayload) : Inbound :=
  if videoOn then VideoOn payload else VideoOff payload.

Definition carries_error (e : Effect) : bool :=
  match e with
  | socket_emit _ (ERROR _ _)
  | socket_to_emit _ _ (ERROR _ _)
  | io_to_emit _ (ERROR _ _) => true
  | _ => false
  end.

(** The entry an accepted join stores for [u] in the room [room0] it found
    (the empty map when the room was created by this join). *)
Definition joined_entry (sid : string) (now : Clock) (payload : JoinCallPayload)
           (m u peer : string) (room0 : gmap string CallParticipant) : CallParticipant :=
  match room0 !! u with
  | Some existingParticipant => with_connection existingParticipant sid peer
  | None =>
      mkCallParticipant sid u m peer (or_default (jp_username payload) "Anonymous")
                        true false (now 0)
  end.

(** [q] is [p] up to the two status flags. *)
Definition same_presence (p q : CallParticipant) : Prop :=
  socketId q = socketId p ∧ userId q = userId p ∧ meetingId q = meetingId p
  ∧ peerId q = peerId p ∧ username q = username p ∧ joinedAt q = joinedAt p.

(** [st'] has the index, the rooms and the members of [st], and every
    participant of [st] is in [st'] up to its status flags. *)
Definition keeps_presence (st st' : Registry) : Prop :=
  socketToUser st' = socketToUser st
  ∧ dom (callRooms st') = dom (callRooms st)
  ∧ (∀ m, members st' m = members st m)
  ∧ (∀ m u p, participant_of st m u = Some p →
              ∃ q, participant_of st' m u = Some q ∧ same_presence p q).

(** ** Basic facts *)

Lemma truthy_string_Some field s :
  truthy_string field = Some s ↔ field = Some s ∧ s ≠ "".
Proof.
  unfold truthy_string. destruct field as [t|]; [|by split; [|intros []]].
  destruct (String.eqb_spec t "") as [->|Hne].
  - split; [done|]. intros [[= <-] Hs]. by destruct Hs.
  - split; [by intros [= ->]|]. by intros [-> _].
Qed.

Lemma Registry_eta st : mkRegistry (callRooms st) (socketToUser st) = st.
Proof. by destruct st. Qed.

Lemma room_is_full_spec n room :
  room_is_full (Some n) room = true ↔ (n ≤ Z.of_nat (size room))%Z.
Proof. unfold room_is_full. by rewrite bool_decide_eq_true. Qed.

Lemma reachable_run MAX evs st : reachable MAX st → reachable MAX (run MAX evs st).
Proof.
  revert st. induction evs as [|[[sid now] ev] evs IH]; intros st Hst; [done|].
  simpl. apply IH. by constructor.
Qed.

(** How a join ends: rejected because the room is full, accepted as a
    reconnection, or rejected because a required field is missing. *)
Lemma on_join_full MAX sid now payload st m u p room :
  truthy_string (jp_meetingId payload) = Some m →
  truthy_string (jp_userId payload) = Some u →
  truthy_string (jp_peerId payload) = Some p →
  callRooms st !! m = Some room →
  room_is_full MAX room = true →
  on_join MAX sid now payload st
  = (st, [socket_emit sid (ERROR (room_full_message MAX) "ROOM_FULL")]).
Proof.
  intros Hm Hu Hp Hroom Hfull. unfold on_join.
  rewrite Hm, Hu, Hp, Hroom, Hfull. by rewrite Registry_eta.
Qed.

Lemma on_join_reconnect MAX sid now payload st m u p room old :
  truthy_string (jp_meetingId payload) = Some m →
  truthy_string (jp_userId payload) = Some u →
  truthy_string (jp_peerId payload) = Some p →
  callRooms st !! m = Some room →
  room_is_full MAX room = false →
  room !! u = Some old →
  (on_join MAX sid now payload st).1
  = mkRegistry (<[m := <[u := with_connection old sid p]> room]> (callRooms st))
               (<[sid := (m, u)]> (socketToUser st))
  ∧ is_error_reply (on_join MAX sid now payload st).2 = false.
Proof.
  intros Hm Hu Hp Hroom Hfull Hold. unfold on_join.
  by rewrite Hm, Hu, Hp, Hroom, Hfull, Hold.
Qed.

Lemma on_join_invalid MAX sid now payload st :
  truthy_string (jp_meetingId payload) = None
  ∨ truthy_string (jp_userId payload) = None
  ∨ truthy_string (jp_peerId payload) = None →
  on_join MAX sid now payload st
  = (st, [socket_emit sid
            (ERROR "Meeting ID, User ID, and Peer ID are required" "INVALID_PAYLOAD")]).
Proof.
  unfold on_join.
  destruct (truthy_string (jp_meetingId payload)),
    (truthy_string (jp_userId payload)),
    (truthy_string (jp_peerId payload)); by intros [|[|]].
Qed.

(** ** Capacity and reconnection *)

(** C1, as amended: a join with its required fields present, on a room that
    already holds the configured maximum number of participants, fails with
    ROOM_FULL and leaves the registry as it was, for a new identity and for
    a member alike: the capacity test comes before the membership test. *)
Theorem join_full_room_rejects_every_identity
        (n : Z) (sid : string) (now : Clock) (payload : JoinCallPayload)
        (st : Registry) (m : string) (room : gmap string CallParticipant) :
  truthy_string (jp_meetingId payload) = Some m →
  is_Some (truthy_string (jp_userId payload)) →
  is_Some (truthy_string (jp_peerId payload)) →
  callRooms st !! m = Some room →
  (n ≤ Z.of_nat (size room))%Z →
  on_join (Some n) sid now payload st
  = (st, [socket_emit sid (ERROR (room_full_message (Some n)) "ROOM_FULL")]).
Proof.
  intros Hm [u Hu] [p Hp] Hroom Hsize.
  eapply on_join_full; eauto. by apply room_is_full_spec.
Qed.

Lemma join_full_room_rejects_every_identity_witness :
  on_join (Some 10%Z) "s10" tick
          (mkJoinCallPayload (Some "r1") (Some "u3") (Some "p3b") None) full_room
  = (full_room,
     [socket_emit "s10" (ERROR (room_full_message (Some 10%Z)) "ROOM_FULL")]).
Proof.
  refine (join_full_room_rejects_every_identity
            10 "s10" tick _ full_room "r1"
            (default ∅ (callRooms full_room !! "r1")) _ _ _ _ _).
  - reflexivity.
  - exists "u3". reflexivity.
  - exists "p3b". reflexivity.
  - vm_compute. reflexivity.
  - vm_compute. discriminate.
Defined.

(** C1 as stated fails: "u3" is a member of the room "r1", which holds the
    default maximum of ten participants; "u3" joining again, on a new
    connection, is answered with ROOM_FULL and nothing is updated. *)
Lemma join_full_room_member_rejected :
  room_size full_room "r1" = 10
  ∧ "u3" ∈ members full_room "r1"
  ∧ on_join (Some 10%Z) "s10" tick (join_as_payload "r1" "u3" "p3b") full_room
    = (full_room,
       [socket_emit "s10"
          (ERROR "Call is full (maximum 10 participants)" "ROOM_FULL")]).
Proof.
  split; [|split].
  - vm_compute. reflexivity.
  - unfold members. apply (bool_decide_unpack _). vm_compute. exact I.
  - vm_compute. reflexivity.
Qed.

(** ** The connection index *)

(** C2, on the code: after A joins on "s1" and joins again on "s2", the
    index still maps "s1" to A although A's entry carries "s2"; when "s1"
    then closes, A is removed, the room is deleted, and the entry of "s2"
    stays behind, naming a participant that no longer exists. *)
Theorem reconnect_leaves_stale_index :
  reachable (Some 10%Z) after_reconnect
  ∧ socketToUser after_reconnect !! "s1" = Some ("r1", "A")
  ∧ socketId <$> participant_of after_reconnect "r1" "A" = Some "s2"
  ∧ ¬ index_consistent after_reconnect
  ∧ reachable (Some 10%Z) (on_disconnect "s1" tick after_reconnect).1
  ∧ callRooms (on_disconnect "s1" tick after_reconnect).1 = ∅
  ∧ socketToUser (on_disconnect "s1" tick after_reconnect).1 !! "s2" = Some ("r1", "A")
  ∧ ¬ index_consistent (on_disconnect "s1" tick after_reconnect).1.
Proof.
  assert (Hreach : reachable (Some 10%Z) after_reconnect)
    by apply reachable_run, reachable_initial.
  repeat split; try (vm_compute; reflexivity); try done.
  - apply (bool_decide_unpack _). vm_compute. exact I.
  - apply (reachable_step (Some 10%Z) after_reconnect "s1" tick Disconnect Hreach).
  - apply (bool_decide_unpack _). vm_compute. exact I.
Qed.

(** ** Signals *)

(** C3, as amended: the signal handler answers INVALID_SIGNAL exactly when
    meetingId, toUserId or the signal payload is missing (or empty); the
    fromUserId and fromPeerId fields of the payload are never read, so
    their presence changes nothing. *)
Theorem signal_invalid_iff_required_missing
        (sid : string) (payload : SignalPayload) (st : Registry) :
  ((on_signal sid payload st).2
     = [socket_emit sid (ERROR "Invalid signal payload" "INVALID_SIGNAL")]
   ↔ truthy_string (sp_meetingId payload) = None
     ∨ truthy_string (sp_toUserId payload) = None
     ∨ truthy (sp_signal payload) = false)
  ∧ ∀ fromUser fromPeer,
      on_signal sid
        (mkSignalPayload (sp_meetingId payload) fromUser (sp_toUserId payload)
                         fromPeer (sp_toPeerId payload) (sp_signal payload)
                         (sp_signalType payload)) st
      = on_signal sid payload st.
Proof.
  split; [|done].
  unfold on_signal.
  destruct (truthy_string (sp_meetingId payload)) as [m|]; [|by split; auto].
  destruct (truthy_string (sp_toUserId payload)) as [u|]; [|by split; auto].
  destruct (truthy (sp_signal payload)); [|by split; auto].
  split.
  - destruct (callRooms st !! m) as [room|]; [|discriminate].
    destruct (room !! u); discriminate.
  - by intros [|[|]].
Qed.

(** C3 as stated fails: B's offer to A has no fromUserId, and it is
    forwarded to A's connection, with the sender taken from the index. *)
Lemma signal_without_sender_forwarded :
  sp_fromUserId offer_without_sender = None
  ∧ on_signal "sB" offer_without_sender two_users
    = (two_users,
       [io_to_emit "sA"
          (SIGNAL "r1" (Some "B") "A" (Some "pB") (Some "pA")
                  (JsObject "{type:'offer',sdp:'v=0'}") (Some "offer"))]).
Proof. split; vm_compute; reflexivity. Qed.

(** ** Case analysis of join and leave *)

Lemma room_not_full_when_empty MAX :
  (∀ n, MAX = Some n → (1 ≤ n)%Z) → room_is_full MAX ∅ = false.
Proof.
  intros Hmax. unfold room_is_full. destruct MAX as [n|]; [|done].
  apply bool_decide_eq_false. rewrite map_size_empty.
  specialize (Hmax n eq_refl). lia.
Qed.

(** With a maximum of at least one, a join either answers with an error and
    changes nothing, or stores an entry for the user and indexes the
    connection. *)
Lemma on_join_cases MAX sid now payload st :
  (∀ n, MAX = Some n → (1 ≤ n)%Z) →
  (is_error_reply (on_join MAX sid now payload st).2 = true
   ∧ (on_join MAX sid now payload st).1 = st)
  ∨ (is_error_reply (on_join MAX sid now payload st).2 = false
     ∧ ∃ m u part,
         truthy_string (jp_meetingId payload) = Some m
         ∧ truthy_string (jp_userId payload) = Some u
         ∧ is_Some (truthy_string (jp_peerId payload))
         ∧ room_is_full MAX (default ∅ (callRooms st !! m)) = false
         ∧ callRooms (on_join MAX sid now payload st).1
           = <[m := <[u := part]> (default ∅ (callRooms st !! m))]> (callRooms st)
         ∧ socketToUser (on_join MAX sid now payload st).1
           = <[sid := (m, u)]> (socketToUser st)).
Proof.
  intros Hmax. unfold on_join.
  destruct (truthy_string (jp_meetingId payload)) as [m|]; [|by left].
  destruct (truthy_string (jp_userId payload)) as [u|]; [|by left].
  destruct (truthy_string (jp_peerId payload)) as [p|]; [|by left].
  destruct (callRooms st !! m) as [room|] eqn:Hroom; simpl.
  - destruct (room_is_full MAX room) eqn:Hfull.
    + left. by rewrite Registry_eta.
    + right. destruct (room !! u) as [old|]; simpl;
        (split; [done|]); eexists m, u, _; by rewrite Hroom.
  - rewrite (room_not_full_when_empty MAX Hmax).
    right. rewrite lookup_empty. simpl. split; [done|].
    eexists m, u, _. rewrite Hroom, insert_insert_eq. simpl.
    by rewrite (room_not_full_when_empty MAX Hmax).
Qed.

(** A leave either finds no such participant and does nothing, or removes
    the participant, the caller's index entry and, when it was the last
    one, the room, and announces the departure to the room. *)
Lemma handleUserLeave_cases sid now om ou st :
  (handleUserLeave sid now om ou st = (st, [])
   ∧ ∀ m u, truthy_string om = Some m → truthy_string ou = Some u →
            participant_of st m u = None)
  ∨ (∃ m u room part,
        truthy_string om = Some m ∧ truthy_string ou = Some u
        ∧ callRooms st !! m = Some room ∧ room !! u = Some part
        ∧ handleUserLeave sid now om ou st
          = (mkRegistry
               (if bool_decide (size (delete u room) = 0)
                then delete m (callRooms st)
                else <[m := delete u room]> (callRooms st))
               (delete sid (socketToUser st)),
             [socket_leave sid m;
              io_to_emit m (PEER_LEFT u (peerId part) (username part) (now 0))])).
Proof.
  unfold handleUserLeave, participant_of.
  destruct (truthy_string om) as [m|]; [|by left].
  destruct (truthy_string ou) as [u|]; [|by left].
  destruct (callRooms st !! m) as [room|] eqn:Hroom;
    [|left; split; [done|]; by intros ?? [= <-] [= <-]; rewrite Hroom].
  destruct (room !! u) as [part|] eqn:Hpart;
    [|left; split; [done|]; by intros ?? [= <-] [= <-]; rewrite Hroom].
  right. by exists m, u, room, part.
Qed.

(** ** Membership along runs of joins and leaves *)

Lemma members_lookup st m room : callRooms st !! m = Some room → members st m = dom room.
Proof. unfold members. by intros ->. Qed.

Lemma members_absent st m : callRooms st !! m = None → members st m = ∅.
Proof. unfold members. intros ->. simpl. apply dom_empty_L. Qed.

Lemma not_member st m u : participant_of st m u = None → u ∉ members st m.
Proof.
  unfold participant_of, members. destruct (callRooms st !! m) as [room|]; simpl.
  - intros Hu. by apply not_elem_of_dom.
  - intros _. rewrite dom_empty_L. apply not_elem_of_empty.
Qed.

Lemma join_keeps_room_inv MAX m sid now payload st acc :
  (∀ n, MAX = Some n → (1 ≤ n)%Z) →
  room_inv m st acc →
  room_inv m (on_join MAX sid now payload st).1
           (track_member m (Join payload) (on_join MAX sid now payload st).2 acc).
Proof.
  intros Hmax [Hmem Hne].
  destruct (on_join_cases MAX sid now payload st Hmax)
    as [[Herr ->]|[Herr (m' & u & part & Hm' & Hu & _ & _ & Hrooms & _)]];
    unfold track_member; rewrite Herr.
  - split; [|done].
    destruct (truthy_string (jp_meetingId payload)) as [m'|]; [|done].
    destruct (truthy_string (jp_userId payload)) as [u|]; [|done].
    by destruct (decide (m' = m)).
  - rewrite Hm', Hu. unfold room_inv, members. rewrite Hrooms.
    destruct (decide (m' = m)) as [->|Hneq].
    + rewrite lookup_insert_eq. simpl. split.
      * rewrite dom_insert_L. by rewrite <- Hmem.
      * intros [= Hempty]. by apply insert_non_empty in Hempty.
    + by rewrite lookup_insert_ne.
Qed.

Lemma leave_keeps_room_inv m sid now payload st acc :
  room_inv m st acc →
  room_inv m (on_leave sid now payload st).1
           (track_member m (Leave payload) (on_leave sid now payload st).2 acc).
Proof.
  intros [Hmem Hne]. unfold on_leave, track_member.
  destruct (handleUserLeave_cases sid now (lp_meetingId payload) (lp_userId payload) st)
    as [[-> Hnone]|(m' & u & room & part & Hm' & Hu & Hroom & Hpart & ->)].
  - simpl. split; [|done].
    destruct (truthy_string (lp_meetingId payload)) as [m'|]; [|done].
    destruct (truthy_string (lp_userId payload)) as [u|]; [|done].
    destruct (decide (m' = m)) as [->|]; [|done].
    pose proof (not_member st m u (Hnone m u eq_refl eq_refl)) as Hu.
    rewrite Hmem in Hu |- *. symmetry.
    by apply difference_disjoint_L, disjoint_singleton_r.
  - rewrite Hm', Hu. simpl. unfold room_inv, members. simpl.
    destruct (decide (m' = m)) as [->|Hneq].
    + assert (acc = dom room) as -> by (by rewrite <- Hmem, (members_lookup _ _ _ Hroom)).
      case_bool_decide as Hsize.
      * rewrite lookup_delete_eq. simpl. split; [|done].
        apply map_size_empty_iff in Hsize.
        by rewrite <- dom_delete_L, Hsize.
      * rewrite lookup_insert_eq. simpl. split; [by rewrite dom_delete_L|].
        intros [= Hempty]. by rewrite Hempty, map_size_empty in Hsize.
    + case_bool_decide.
      * by rewrite lookup_delete_ne.
      * by rewrite lookup_insert_ne.
Qed.

Lemma run_keeps_room_inv MAX m evs :
  (∀ n, MAX = Some n → (1 ≤ n)%Z) →
  Forall (λ e : string * Clock * Inbound, is_join_or_leave e.2 = true) evs →
  ∀ st acc, room_inv m st acc →
            room_inv m (run MAX evs st) (joined_not_left MAX m evs st acc).
Proof.
  intros Hmax. induction 1 as [|[[sid now] ev] evs Hev _ IH]; intros st acc Hinv; [done|].
  simpl. apply IH. destruct ev; try discriminate; simpl.
  - by apply join_keeps_room_inv.
  - by apply leave_keeps_room_inv.
Qed.

(** C4, as amended: when the configured maximum is at least one (or is not
    a number), then after every sequence of join and leave events, on any
    connections and rooms, the members of a room are exactly the userIds
    that have joined it and not left it since, its size is their number,
    and the room is present in the registry exactly when that size is not
    zero.  Every prefix of such a sequence is such a sequence, so this holds
    after each event. *)
Theorem membership_tracks_joins_and_leaves
        (MAX : option Z) (evs : list (string * Clock * Inbound)) (m : string) :
  (∀ n, MAX = Some n → (1 ≤ n)%Z) →
  Forall (λ e : string * Clock * Inbound, is_join_or_leave e.2 = true) evs →
  members (run MAX evs initial) m = joined_not_left MAX m evs initial ∅
  ∧ room_size (run MAX evs initial) m = size (joined_not_left MAX m evs initial ∅)
  ∧ (is_Some (callRooms (run MAX evs initial) !! m)
     ↔ room_size (run MAX evs initial) m ≠ 0).
Proof.
  intros Hmax Hevs.
  destruct (run_keeps_room_inv MAX m evs Hmax Hevs initial ∅) as [Hmem Hne].
  { split; [|done]. apply members_absent. apply lookup_empty. }
  split; [done|]. split.
  - rewrite <- Hmem. unfold room_size, members. by rewrite size_dom.
  - unfold room_size. destruct (callRooms (run MAX evs initial) !! m) as [room|]; simpl.
    + split; [|by eauto]. intros _. apply map_size_non_empty_iff. congruence.
    + rewrite map_size_empty. split; [by intros [? [=]]|done].
Qed.

Lemma membership_tracks_joins_and_leaves_witness :
  members (run (Some 10%Z) join_join_leave initial) "r1"
  = joined_not_left (Some 10%Z) "r1" join_join_leave initial ∅
  ∧ room_size (run (Some 10%Z) join_join_leave initial) "r1"
    = size (joined_not_left (Some 10%Z) "r1" join_join_leave initial ∅)
  ∧ (is_Some (callRooms (run (Some 10%Z) join_join_leave initial) !! "r1")
     ↔ room_size (run (Some 10%Z) join_join_leave initial) "r1" ≠ 0).
Proof.
  apply (membership_tracks_joins_and_leaves (Some 10%Z) join_join_leave "r1").
  - intros n [= <-]. lia.
  - repeat constructor.
Defined.

(** C4 as stated fails when the configured maximum is zero: the first join
    on "r1" creates the room, is then answered with ROOM_FULL, and the room
    stays in the registry with no participant, although nobody has joined. *)
Lemma failed_join_leaves_empty_room :
  is_error_reply (on_join (Some 0%Z) "s1" tick (join_as_payload "r1" "A" "pA") initial).2
  = true
  ∧ joined_not_left (Some 0%Z) "r1" [("s1", tick, join_as "r1" "A" "pA")] initial ∅ = ∅
  ∧ callRooms (run (Some 0%Z) [("s1", tick, join_as "r1" "A" "pA")] initial) !! "r1"
    = Some ∅
  ∧ room_size (run (Some 0%Z) [("s1", tick, join_as "r1" "A" "pA")] initial) "r1" = 0.
Proof. repeat split; vm_compute; reflexivity. Qed.

(** ** Reconnection *)

Lemma participant_of_Some st m u p :
  participant_of st m u = Some p
  ↔ ∃ room, callRooms st !! m = Some room ∧ room !! u = Some p.
Proof. unfold participant_of. apply bind_Some. Qed.

(** What a join naming a member never touches. *)
Lemma rejoin_frame MAX sid now payload st m u old :
  jp_meetingId payload = Some m →
  jp_userId payload = Some u →
  participant_of st m u = Some old →
  room_size (on_join MAX sid now payload st).1 m = room_size st m
  ∧ (∀ u', u' ≠ u →
           participant_of (on_join MAX sid now payload st).1 m u'
           = participant_of st m u')
  ∧ ∃ new,
      participant_of (on_join MAX sid now payload st).1 m u = Some new
      ∧ joinedAt new = joinedAt old
      ∧ isMuted new = isMuted old
      ∧ isVideoOn new = isVideoOn old
      ∧ username new = username old
      ∧ userId new = userId old
      ∧ meetingId new = meetingId old
      ∧ (is_error_reply (on_join MAX sid now payload st).2 = true ∧ new = old
         ∨ is_error_reply (on_join MAX sid now payload st).2 = false
           ∧ socketId new = sid
           ∧ jp_peerId payload = Some (peerId new)).
Proof.
  intros Hm Hu Hold.
  assert (Hsame : ∀ r : Registry * list Effect,
             r.1 = st → is_error_reply r.2 = true →
             room_size r.1 m = room_size st m
             ∧ (∀ u', u' ≠ u → participant_of r.1 m u' = participant_of st m u')
             ∧ ∃ new, participant_of r.1 m u = Some new
                 ∧ joinedAt new = joinedAt old ∧ isMuted new = isMuted old
                 ∧ isVideoOn new = isVideoOn old ∧ username new = username old
                 ∧ userId new = userId old ∧ meetingId new = meetingId old
                 ∧ (is_error_reply r.2 = true ∧ new = old
                    ∨ is_error_reply r.2 = false ∧ socketId new = sid
                      ∧ jp_peerId payload = Some (peerId new))).
  { intros r -> Herr. split; [done|]. split; [done|].
    exists old. repeat split; auto. }
  destruct (truthy_string (jp_meetingId payload)) as [m'|] eqn:Hm';
    [|by apply Hsame; rewrite on_join_invalid by auto].
  destruct (truthy_string (jp_userId payload)) as [u'|] eqn:Hu';
    [|by apply Hsame; rewrite on_join_invalid by auto].
  destruct (truthy_string (jp_peerId payload)) as [p|] eqn:Hp;
    [|by apply Hsame; rewrite on_join_invalid by auto].
  assert (m' = m) as ->
    by (apply truthy_string_Some in Hm' as [Hm' _]; congruence).
  assert (u' = u) as ->
    by (apply truthy_string_Some in Hu' as [Hu' _]; congruence).
  apply participant_of_Some in Hold as (room & Hroom & Hold).
  destruct (room_is_full MAX room) eqn:Hfull.
  { apply Hsame; by rewrite (on_join_full MAX sid now payload st m u p room). }
  destruct (on_join_reconnect MAX sid now payload st m u p room old) as [-> ->];
    try done.
  unfold room_size, participant_of. simpl. rewrite lookup_insert_eq, Hroom. simpl.
  split; [by eapply map_size_insert_Some|].
  split; [by intros u' Hne; rewrite lookup_insert_ne|].
  exists (with_connection old sid p). rewrite lookup_insert_eq.
  repeat split; try done. right. repeat split; try done.
  by apply truthy_string_Some in Hp as [-> _].
Qed.

Lemma room_below_maximum MAX st m room :
  callRooms st !! m = Some room →
  (∀ n, MAX = Some n → (Z.of_nat (room_size st m) < n)%Z) →
  room_is_full MAX room = false.
Proof.
  intros Hroom Hbelow. unfold room_is_full. destruct MAX as [n|]; [|done].
  apply bool_decide_eq_false. specialize (Hbelow n eq_refl).
  unfold room_size in Hbelow. rewrite Hroom in Hbelow. simpl in Hbelow. lia.
Qed.

(** C5: a join naming a user who is already a member of the room leaves the
    size of the room and every other participant as they were, and keeps
    the member's joinedAt, isMuted, isVideoOn and username (and userId and
    meetingId).  When the request has a peerId and the room is below the
    configured maximum, the join is accepted: the entry becomes the old one
    with the caller's connection as socketId and the peerId of the request,
    nothing else changed, and the caller is indexed to the user.  When the
    peerId is missing or the room is at the maximum, the join is answered
    with an error and the whole registry, the entry included, is as
    before. *)
Theorem rejoin_preserves_participant
        (MAX : option Z) (sid : string) (now : Clock) (payload : JoinCallPayload)
        (st : Registry) (m u : string) (old : CallParticipant) :
  jp_meetingId payload = Some m →
  jp_userId payload = Some u →
  participant_of st m u = Some old →
  room_size (on_join MAX sid now payload st).1 m = room_size st m
  ∧ (∀ u', u' ≠ u →
           participant_of (on_join MAX sid now payload st).1 m u'
           = participant_of st m u')
  ∧ (∃ new,
      participant_of (on_join MAX sid now payload st).1 m u = Some new
      ∧ joinedAt new = joinedAt old
      ∧ isMuted new = isMuted old
      ∧ isVideoOn new = isVideoOn old
      ∧ username new = username old
      ∧ userId new = userId old
      ∧ meetingId new = meetingId old
      ∧ (is_error_reply (on_join MAX sid now payload st).2 = true ∧ new = old
         ∨ is_error_reply (on_join MAX sid now payload st).2 = false
           ∧ socketId new = sid
           ∧ jp_peerId payload = Some (peerId new)))
  ∧ (∀ peer,
        m ≠ "" → u ≠ "" →
        truthy_string (jp_peerId payload) = Some peer →
        (∀ n, MAX = Some n → (Z.of_nat (room_size st m) < n)%Z) →
        is_error_reply (on_join MAX sid now payload st).2 = false
        ∧ participant_of (on_join MAX sid now payload st).1 m u
          = Some (with_connection old sid peer)
        ∧ socketToUser (on_join MAX sid now payload st).1 !! sid = Some (m, u))
  ∧ (truthy_string (jp_peerId payload) = None
     ∨ (∃ n, MAX = Some n ∧ (n ≤ Z.of_nat (room_size st m))%Z) →
     is_error_reply (on_join MAX sid now payload st).2 = true
     ∧ (on_join MAX sid now payload st).1 = st).
Proof.
  intros Hm Hu Hold.
  destruct (rejoin_frame MAX sid now payload st m u old Hm Hu Hold)
    as (Hsize & Hothers & Hkept).
  do 3 (split; [done|]).
  pose proof Hold as (room & Hroom & Hentry)%participant_of_Some.
  split.
  - intros peer Hm0 Hu0 Hpeer Hbelow.
    assert (Hmt : truthy_string (jp_meetingId payload) = Some m)
      by (rewrite Hm; by apply truthy_string_Some).
    assert (Hut : truthy_string (jp_userId payload) = Some u)
      by (rewrite Hu; by apply truthy_string_Some).
    pose proof (room_below_maximum MAX st m room Hroom Hbelow) as Hfull.
    destruct (on_join_reconnect MAX sid now payload st m u peer room old
                                Hmt Hut Hpeer Hroom Hfull Hentry) as [-> ->].
    split; [done|]. unfold participant_of. simpl.
    rewrite lookup_insert_eq. simpl. by rewrite !lookup_insert_eq.
  - intros Hrefused.
    destruct (truthy_string (jp_meetingId payload)) as [m'|] eqn:Hm';
      [|by rewrite on_join_invalid by auto].
    destruct (truthy_string (jp_userId payload)) as [u'|] eqn:Hu';
      [|by rewrite on_join_invalid by auto].
    destruct (truthy_string (jp_peerId payload)) as [peer|] eqn:Hpeer;
      [|by rewrite on_join_invalid by auto].
    assert (m' = m) as ->
      by (apply truthy_string_Some in Hm' as [Hm' _]; congruence).
    destruct Hrefused as [|(n & -> & Hn)]; [done|].
    rewrite (on_join_full (Some n) sid now payload st m u' peer room); try done.
    apply room_is_full_spec. unfold room_size in Hn. by rewrite Hroom in Hn.
Qed.

Lemma rejoin_preserves_participant_witness :
  participant_of
    (on_join (Some 10%Z) "sA2" tick (join_as_payload "r1" "A" "pA2") two_users).1
    "r1" "A"
  = Some (with_connection entry_A "sA2" "pA2")
  ∧ room_size (on_join (Some 10%Z) "sA2" tick (join_as_payload "r1" "A" "pA2")
                       two_users).1 "r1"
    = room_size two_users "r1".
Proof.
  destruct (rejoin_preserves_participant
              (Some 10%Z) "sA2" tick (join_as_payload "r1" "A" "pA2")
              two_users "r1" "A" entry_A)
    as (Hsize & _ & _ & Hupdated & _).
  - reflexivity.
  - reflexivity.
  - vm_compute. reflexivity.
  - destruct (Hupdated "pA2") as (_ & Hentry & _).
    + discriminate.
    + discriminate.
    + reflexivity.
    + intros n [= <-]. vm_compute. reflexivity.
    + split; [exact Hentry | exact Hsize].
Defined.

(** ** Unicast delivery of signals *)



(** ** Disconnect and leave *)

Lemma truthy_string_nonempty s : s ≠ "" → truthy_string (Some s) = Some s.
Proof. intros Hs. by apply truthy_string_Some. Qed.


Lemma handleUserLeave_removes sid now om ou st m u :
  truthy_string om = Some m → truthy_string ou = Some u →
  participant_of (handleUserLeave sid now om ou st).1 m u = None.
Proof.
  intros Hm Hu.
  destruct (handleUserLeave_cases sid now om ou st)
    as [[-> Hnone]|(m' & u' & room & part & Hm' & Hu' & Hroom & Hpart & ->)]; [by auto|].
  assert (m' = m) as -> by congruence. assert (u' = u) as -> by congruence.
  unfold participant_of. simpl. case_bool_decide.
  - by rewrite lookup_delete_eq.
  - rewrite lookup_insert_eq. simpl. apply lookup_delete_eq.
Qed.

(** C7, as amended: the disconnect handler knows the user of a closing
    connection through the connection index only.  For a connection that
    the index resolves to (roomId, userId), the disconnect gives the same
    registry and the same emissions as a leave event for (roomId, userId)
    arriving on that connection; for a participant that exists this removes
    the entry and the index entry of the connection, deletes the room when
    it was the last entry, and broadcasts one peer-left to the room. *)
Theorem disconnect_acts_as_leave
        (sid : string) (now : Clock) (st : Registry) (m u : string) :
  socketToUser st !! sid = Some (m, u) →
  on_disconnect sid now st
  = on_leave sid now (mkLeaveCallPayload (Some m) (Some u)) st
  ∧ ∀ p, m ≠ "" → u ≠ "" → participant_of st m u = Some p →
         participant_of (on_disconnect sid now st).1 m u = None
         ∧ socketToUser (on_disconnect sid now st).1 !! sid = None
         ∧ (room_size st m = 1 → callRooms (on_disconnect sid now st).1 !! m = None)
         ∧ (on_disconnect sid now st).2
           = [socket_leave sid m;
              io_to_emit m (PEER_LEFT u (peerId p) (username p) (now 0))].
Proof.
  intros Hidx. unfold on_disconnect, on_leave. rewrite Hidx. simpl.
  split; [done|]. intros p Hm Hu Hp.
  split; [by apply handleUserLeave_removes; apply truthy_string_nonempty|].
  destruct (handleUserLeave_cases sid now (Some m) (Some u) st)
    as [[_ Hnone]|(m' & u' & room & part & Hm' & Hu' & Hroom & Hpart & ->)].
  { rewrite (Hnone m u) in Hp by by apply truthy_string_nonempty. done. }
  rewrite (truthy_string_nonempty m Hm) in Hm'. injection Hm' as <-.
  rewrite (truthy_string_nonempty u Hu) in Hu'. injection Hu' as <-.
  unfold participant_of in Hp. rewrite Hroom in Hp. simpl in Hp.
  assert (part = p) as -> by congruence.
  simpl. split; [apply lookup_delete_eq|]. split; [|done].
  unfold room_size. rewrite Hroom. simpl. intros Hsize.
  rewrite bool_decide_eq_true_2; [apply lookup_delete_eq|].
  rewrite map_size_delete_Some by eauto. lia.
Qed.

Lemma disconnect_acts_as_leave_witness :
  on_disconnect "sA" tick two_users
  = on_leave "sA" tick (mkLeaveCallPayload (Some "r1") (Some "A")) two_users
  ∧ participant_of (on_disconnect "sA" tick two_users).1 "r1" "A" = None
  ∧ (on_disconnect "sA" tick two_users).2
    = [socket_leave "sA" "r1"; io_to_emit "r1" (PEER_LEFT "A" "pA" "A" (tick 0))].
Proof.
  assert (Hidx : socketToUser two_users !! "sA" = Some ("r1", "A"))
    by (vm_compute; reflexivity).
  destruct (disconnect_acts_as_leave "sA" tick two_users "r1" "A" Hidx) as [Heq Hrem].
  split; [exact Heq|].
  destruct (Hrem entry_A) as (Hgone & _ & _ & Hout).
  - discriminate.
  - discriminate.
  - vm_compute. reflexivity.
  - split; [exact Hgone | exact Hout].
Defined.

(** C7 as stated fails.  The index has one entry per connection: after
    the connection "s1" has joined room "r1" as A and then as B, A is in the
    room and A's entry carries "s1", but the index resolves "s1" to B.
    Closing "s1" removes and announces B, and A's entry stays; a leave for
    A removes and announces A. *)
Lemma shared_connection_resolves_to_last_join :
  reachable (Some 10%Z) shared_connection
  ∧ socketId <$> participant_of shared_connection "r1" "A" = Some "s1"
  ∧ on_disconnect "s1" tick shared_connection
    ≠ on_leave "s1" tick (mkLeaveCallPayload (Some "r1") (Some "A")) shared_connection
  ∧ is_Some (participant_of (on_disconnect "s1" tick shared_connection).1 "r1" "A")
  ∧ (on_disconnect "s1" tick shared_connection).2
    = [socket_leave "s1" "r1"; io_to_emit "r1" (PEER_LEFT "B" "pB" "B" (tick 0))]
  ∧ participant_of
      (on_leave "s1" tick (mkLeaveCallPayload (Some "r1") (Some "A")) shared_connection).1
      "r1" "A" = None
  ∧ (on_leave "s1" tick (mkLeaveCallPayload (Some "r1") (Some "A")) shared_connection).2
    = [socket_leave "s1" "r1"; io_to_emit "r1" (PEER_LEFT "A" "pA" "A" (tick 0))].
Proof.
  split; [apply reachable_run, reachable_initial|].
  split; [vm_compute; reflexivity|].
  split; [apply (bool_decide_unpack _); vm_compute; exact I|].
  split; [apply (bool_decide_unpack _); vm_compute; exact I|].
  repeat split; vm_compute; reflexivity.
Qed.



(** ** Mute status *)

(** C9: a mute or unmute event naming a participant that exists stores the
    requested value in the participant's isMuted flag, whatever it was
    before, changes nothing else, and broadcasts one mute-status event with
    that value to the whole room, the sender not excluded; when the room or
    the user does not exist, or an identifier is missing, the registry is
    unchanged and nothing is emitted. *)
Theorem mute_sets_flag_and_broadcasts
        (MAX : option Z) (muted : bool) (sid : string) (now : Clock)
        (payload : MutePayload) (st : Registry) :
  (∀ m u room p,
      truthy_string (mp_meetingId payload) = Some m →
      truthy_string (mp_userId payload) = Some u →
      callRooms st !! m = Some room →
      room !! u = Some p →
      handle MAX sid now (mute_event muted payload) st
      = (mkRegistry (<[m := <[u := with_isMuted p muted]> room]> (callRooms st))
                    (socketToUser st),
         [io_to_emit m (MUTE_STATUS u (username p) muted (now 0))])
      ∧ isMuted <$> participant_of (handle MAX sid now (mute_event muted payload) st).1 m u
        = Some muted)
  ∧ ((∀ m u,
         truthy_string (mp_meetingId payload) = Some m →
         truthy_string (mp_userId payload) = Some u →
         participant_of st m u = None) →
     handle MAX sid now (mute_event muted payload) st = (st, [])).
Proof.
  assert (Hhandle : handle MAX sid now (mute_event muted payload) st
                    = on_set_mute muted sid now payload st) by by destruct muted.
  rewrite Hhandle. unfold on_set_mute. split.
  - intros m u room p Hm Hu Hroom Hp. rewrite Hm, Hu, Hroom, Hp.
    split; [done|]. unfold participant_of. simpl.
    rewrite lookup_insert_eq. simpl. by rewrite lookup_insert_eq.
  - intros Habsent.
    destruct (truthy_string (mp_meetingId payload)) as [m|]; [|done].
    destruct (truthy_string (mp_userId payload)) as [u|]; [|done].
    specialize (Habsent m u eq_refl eq_refl). unfold participant_of in Habsent.
    destruct (callRooms st !! m) as [room|]; [|done]. simpl in Habsent.
    by rewrite Habsent.
Qed.

Lemma mute_sets_flag_and_broadcasts_witness :
  handle (Some 10%Z) "sB" tick
         (mute_event false (mkMutePayload (Some "r1") (Some "B"))) two_users
  = (mkRegistry
       (<["r1" := <["B" := with_isMuted entry_B false]>
                    (default ∅ (callRooms two_users !! "r1"))]> (callRooms two_users))
       (socketToUser two_users),
     [io_to_emit "r1" (MUTE_STATUS "B" "B" false (tick 0))])
  ∧ handle (Some 10%Z) "sB" tick
           (mute_event true (mkMutePayload (Some "r2") (Some "B"))) two_users
    = (two_users, []).
Proof.
  split.
  - refine (proj1 (proj1 (mute_sets_flag_and_broadcasts
                            (Some 10%Z) false "sB" tick
                            (mkMutePayload (Some "r1") (Some "B")) two_users)
                         "r1" "B" (default ∅ (callRooms two_users !! "r1")) entry_B
                         _ _ _ _)).
    + reflexivity.
    + reflexivity.
    + vm_compute. reflexivity.
    + vm_compute. reflexivity.
  - refine (proj2 (mute_sets_flag_and_broadcasts
                     (Some 10%Z) true "sB" tick
                     (mkMutePayload (Some "r2") (Some "B")) two_users) _).
    intros m u [= <-] [= <-]. vm_compute. reflexivity.
Defined.

(** ** Failed joins *)

(** C10: with a configured maximum of at least one, a join answered with
    INVALID_PAYLOAD or with ROOM_FULL leaves the registry, rooms and index,
    exactly as it was. *)
Theorem failed_join_changes_nothing
        (n : Z) (sid : string) (now : Clock) (payload : JoinCallPayload)
        (st : Registry) :
  (1 ≤ n)%Z →
  (on_join (Some n) sid now payload st).2
    = [socket_emit sid
         (ERROR "Meeting ID, User ID, and Peer ID are required" "INVALID_PAYLOAD")]
  ∨ (on_join (Some n) sid now payload st).2
    = [socket_emit sid (ERROR (room_full_message (Some n)) "ROOM_FULL")] →
  (on_join (Some n) sid now payload st).1 = st.
Proof.
  intros Hn Hreply.
  destruct (on_join_cases (Some n) sid now payload st) as [[_ Hst]|[Hok _]].
  - by intros ? [= <-].
  - done.
  - by destruct Hreply as [Hr|Hr]; rewrite Hr in Hok.
Qed.

Lemma failed_join_changes_nothing_witness :
  (on_join (Some 10%Z) "s10" tick (join_as_payload "r1" "u10" "p10") full_room).1
  = full_room.
Proof.
  apply (failed_join_changes_nothing 10 "s10" tick (join_as_payload "r1" "u10" "p10")
                                     full_room).
  - lia.
  - right. vm_compute. reflexivity.
Defined.

(** * Further properties of the handlers and accessors *)

(** ** The outcomes of a join *)

Lemma on_join_shape MAX sid now payload st :
  ((truthy_string (jp_meetingId payload) = None
    ∨ truthy_string (jp_userId payload) = None
    ∨ truthy_string (jp_peerId payload) = None)
   ∧ on_join MAX sid now payload st
     = (st, [socket_emit sid
               (ERROR "Meeting ID, User ID, and Peer ID are required" "INVALID_PAYLOAD")]))
  ∨ (∃ m u peer,
        truthy_string (jp_meetingId payload) = Some m
        ∧ truthy_string (jp_userId payload) = Some u
        ∧ truthy_string (jp_peerId payload) = Some peer
        ∧ ((∃ room, callRooms st !! m = Some room ∧ room_is_full MAX room = true
                    ∧ on_join MAX sid now payload st
                      = (st, [socket_emit sid (ERROR (room_full_message MAX) "ROOM_FULL")]))
           ∨ (callRooms st !! m = None ∧ room_is_full MAX ∅ = true
              ∧ on_join MAX sid now payload st
                = (mkRegistry (<[m := ∅]> (callRooms st)) (socketToUser st),
                   [socket_emit sid (ERROR (room_full_message MAX) "ROOM_FULL")]))
           ∨ (room_is_full MAX (default ∅ (callRooms st !! m)) = false
              ∧ on_join MAX sid now payload st
                = (mkRegistry
                     (<[m := <[u := joined_entry sid now payload m u peer
                                      (default ∅ (callRooms st !! m))]>
                               (default ∅ (callRooms st !! m))]> (callRooms st))
                     (<[sid := (m, u)]> (socketToUser st)),
                   [socket_join sid m;
                    socket_emit sid
                      (PEERS_LIST m
                         (otherParticipants
                            (<[u := joined_entry sid now payload m u peer
                                      (default ∅ (callRooms st !! m))]>
                               (default ∅ (callRooms st !! m))) u)
                         (length
                            (otherParticipants
                               (<[u := joined_entry sid now payload m u peer
                                         (default ∅ (callRooms st !! m))]>
                                  (default ∅ (callRooms st !! m))) u)));
                    socket_to_emit sid m
                      (PEER_JOINED u peer (or_default (jp_username payload) "Anonymous")
                         (now match default ∅ (callRooms st !! m) !! u with
                              | Some _ => 0
                              | None => 1
                              end))])))).
Proof.
  destruct (truthy_string (jp_meetingId payload)) as [m|] eqn:Hm;
    [|left; split; [by auto|]; by apply on_join_invalid; auto].
  destruct (truthy_string (jp_userId payload)) as [u|] eqn:Hu;
    [|left; split; [by auto|]; by apply on_join_invalid; auto].
  destruct (truthy_string (jp_peerId payload)) as [peer|] eqn:Hp;
    [|left; split; [by auto|]; by apply on_join_invalid; auto].
  right. exists m, u, peer. do 3 (split; [done|]).
  unfold on_join, joined_entry. rewrite Hm, Hu, Hp.
  destruct (callRooms st !! m) as [room|] eqn:Hroom; simpl.
  - destruct (room_is_full MAX room) eqn:Hfull.
    + left. exists room. by rewrite Registry_eta.
    + right; right. split; [done|]. by destruct (room !! u).
  - destruct (room_is_full MAX ∅) eqn:Hfull.
    + right; left. done.
    + right; right. split; [done|].
      rewrite lookup_empty. simpl. by rewrite insert_insert_eq.
Qed.

Lemma on_set_mute_shape muted sid now payload st :
  on_set_mute muted sid now payload st = (st, [])
  ∨ ∃ m u room p,
      truthy_string (mp_meetingId payload) = Some m
      ∧ truthy_string (mp_userId payload) = Some u
      ∧ callRooms st !! m = Some room ∧ room !! u = Some p
      ∧ on_set_mute muted sid now payload st
        = (mkRegistry (<[m := <[u := with_isMuted p muted]> room]> (callRooms st))
                      (socketToUser st),
           [io_to_emit m (MUTE_STATUS u (username p) muted (now 0))]).
Proof.
  unfold on_set_mute.
  destruct (truthy_string (mp_meetingId payload)) as [m|]; [|by left].
  destruct (truthy_string (mp_userId payload)) as [u|]; [|by left].
  destruct (callRooms st !! m) as [room|] eqn:Hroom; [|by left].
  destruct (room !! u) as [p|] eqn:Hp; [|by left].
  right. by exists m, u, room, p.
Qed.

Lemma on_set_video_shape videoOn sid now payload st :
  on_set_video videoOn sid now payload st = (st, [])
  ∨ ∃ m u room p,
      truthy_string (mp_meetingId payload) = Some m
      ∧ truthy_string (mp_userId payload) = Some u
      ∧ callRooms st !! m = Some room ∧ room !! u = Some p
      ∧ on_set_video videoOn sid now payload st
        = (mkRegistry (<[m := <[u := with_isVideoOn p videoOn]> room]> (callRooms st))
                      (socketToUser st),
           [io_to_emit m (VIDEO_STATUS u (username p) videoOn (now 0))]).
Proof.
  unfold on_set_video.
  destruct (truthy_string (mp_meetingId payload)) as [m|]; [|by left].
  destruct (truthy_string (mp_userId payload)) as [u|]; [|by left].
  destruct (callRooms st !! m) as [room|] eqn:Hroom; [|by left].
  destruct (room !! u) as [p|] eqn:Hp; [|by left].
  right. by exists m, u, room, p.
Qed.

Lemma on_signal_keeps_registry sid payload st : (on_signal sid payload st).1 = st.
Proof.
  unfold on_signal.
  destruct (truthy_string (sp_meetingId payload)) as [m|]; [|done].
  destruct (truthy_string (sp_toUserId payload)) as [u|]; [|done].
  destruct (truthy (sp_signal payload)); [|done].
  destruct (callRooms st !! m) as [room|]; [|done].
  by destruct (room !! u).
Qed.

(** ** Invariants of every reachable registry *)

Lemma or_default_nonempty field d : d ≠ "" → or_default field d ≠ "".
Proof.
  intros Hd. unfold or_default.
  destruct (truthy_string field) as [s|] eqn:Hs; [|done].
  by apply truthy_string_Some in Hs as [_ ?].
Qed.

Lemma room_ok_empty MAX m : m ≠ "" → room_is_full MAX ∅ = true → room_ok MAX m ∅.
Proof.
  intros Hm Hfull. split; [done|]. split; [by intros u p; rewrite lookup_empty|].
  split.
  - intros n _. rewrite map_size_empty. lia.
  - intros Hmax. by rewrite room_not_full_when_empty in Hfull.
Qed.

(** Replacing an entry by one with the same identity. *)
Lemma room_ok_update MAX m room u p q :
  room_ok MAX m room → room !! u = Some p →
  userId q = userId p → meetingId q = meetingId p →
  peerId q ≠ "" → username q ≠ "" →
  room_ok MAX m (<[u := q]> room).
Proof.
  intros (Hm & Hent & Hcap & Hne) Hp Hid Hmeet Hpeer Hname.
  split; [done|]. split; [|split].
  - intros v r. destruct (decide (u = v)) as [<-|Hv].
    + rewrite lookup_insert_eq. intros [= <-].
      destruct (Hent u p Hp) as (? & ? & ? & _). repeat split; congruence.
    + rewrite lookup_insert_ne by done. apply Hent.
  - intros n Hn. rewrite map_size_insert_Some by eauto. by apply Hcap.
  - intros _. apply insert_non_empty.
Qed.

(** Adding an entry to a room that is not full. *)
Lemma room_ok_add MAX m room u q :
  m ≠ "" → u ≠ "" →
  room = ∅ ∨ room_ok MAX m room →
  room !! u = None → room_is_full MAX room = false →
  userId q = u → meetingId q = m → peerId q ≠ "" → username q ≠ "" →
  room_ok MAX m (<[u := q]> room).
Proof.
  intros Hm Hu Hroom Hfresh Hfull Hid Hmeet Hpeer Hname.
  split; [done|]. split; [|split].
  - intros v r. destruct (decide (u = v)) as [<-|Hv].
    + rewrite lookup_insert_eq. by intros [= <-].
    + rewrite lookup_insert_ne by done.
      destruct Hroom as [->|(_ & Hent & _)]; [by rewrite lookup_empty|apply Hent].
  - intros n ->. rewrite map_size_insert_None by done.
    unfold room_is_full in Hfull. apply bool_decide_eq_false in Hfull. lia.
  - intros _. apply insert_non_empty.
Qed.

Lemma room_ok_remove MAX m room u :
  room_ok MAX m room → size (delete u room) ≠ 0 → room_ok MAX m (delete u room).
Proof.
  intros (Hm & Hent & Hcap & _) Hsize.
  split; [done|]. split; [|split].
  - intros v r Hv. apply lookup_delete_Some in Hv as [_ Hv]. by apply Hent.
  - intros n Hn. specialize (Hcap n Hn).
    pose proof (map_size_delete u room) as Hdel.
    destruct (room !! u); simpl in Hdel; lia.
  - intros _ Hempty. by rewrite Hempty, map_size_empty in Hsize.
Qed.

Lemma on_join_keeps_rooms_ok MAX sid now payload st :
  rooms_ok MAX st → rooms_ok MAX (on_join MAX sid now payload st).1.
Proof.
  intros Hok. unfold rooms_ok in *.
  destruct (on_join_shape MAX sid now payload st)
    as [[_ ->]|(m & u & peer & Hm & Hu & Hp
                & [(room & Hroom & Hfull & ->)|[(Hroom & Hfull & ->)|(Hfull & ->)]])];
    try done; simpl.
  - apply map_Forall_insert_2; [|done].
    apply room_ok_empty; [|done]. by apply truthy_string_Some in Hm as [_ ?].
  - apply map_Forall_insert_2; [|done].
    apply truthy_string_Some in Hm as [_ Hm].
    apply truthy_string_Some in Hu as [_ Hu].
    apply truthy_string_Some in Hp as [_ Hp].
    unfold joined_entry.
    destruct (callRooms st !! m) as [room|] eqn:Hroom; simpl in *.
    + pose proof (map_Forall_lookup_1 _ _ _ _ Hok Hroom) as Hroom_ok.
      destruct (room !! u) as [old|] eqn:Hold.
      * destruct Hroom_ok as (? & Hent & ?). destruct (Hent u old Hold) as (_ & _ & _ & _ & ?).
        by eapply room_ok_update.
      * apply room_ok_add; auto. by apply or_default_nonempty.
    + rewrite lookup_empty. apply room_ok_add; auto. by apply or_default_nonempty.
Qed.

Lemma handleUserLeave_keeps_rooms_ok MAX sid now om ou st :
  rooms_ok MAX st → rooms_ok MAX (handleUserLeave sid now om ou st).1.
Proof.
  intros Hok. unfold rooms_ok in *.
  destruct (handleUserLeave_cases sid now om ou st)
    as [[-> _]|(m & u & room & part & _ & _ & Hroom & _ & ->)]; [done|]. simpl.
  case_bool_decide as Hsize.
  - by apply map_Forall_delete.
  - apply map_Forall_insert_2; [|done].
    apply room_ok_remove; [|done]. by eapply map_Forall_lookup_1.
Qed.

Lemma handle_keeps_rooms_ok MAX sid now ev st :
  rooms_ok MAX st → rooms_ok MAX (handle MAX sid now ev st).1.
Proof.
  intros Hok. destruct ev as [p|p|p|p|p|p|p|]; simpl.
  - by apply on_join_keeps_rooms_ok.
  - by rewrite on_signal_keeps_registry.
  - unfold on_mute.
    destruct (on_set_mute_shape true sid now p st)
      as [->|(m & u & room & q & _ & _ & Hroom & Hq & ->)]; [done|]. simpl.
    apply map_Forall_insert_2; [|done].
    pose proof (map_Forall_lookup_1 _ _ _ _ Hok Hroom) as Hroom_ok.
    destruct (Hroom_ok) as (_ & Hent & _). destruct (Hent u q Hq) as (_ & _ & _ & ? & ?).
    by eapply room_ok_update.
  - unfold on_unmute.
    destruct (on_set_mute_shape false sid now p st)
      as [->|(m & u & room & q & _ & _ & Hroom & Hq & ->)]; [done|]. simpl.
    apply map_Forall_insert_2; [|done].
    pose proof (map_Forall_lookup_1 _ _ _ _ Hok Hroom) as Hroom_ok.
    destruct (Hroom_ok) as (_ & Hent & _). destruct (Hent u q Hq) as (_ & _ & _ & ? & ?).
    by eapply room_ok_update.
  - unfold on_video_on.
    destruct (on_set_video_shape true sid now p st)
      as [->|(m & u & room & q & _ & _ & Hroom & Hq & ->)]; [done|]. simpl.
    apply map_Forall_insert_2; [|done].
    pose proof (map_Forall_lookup_1 _ _ _ _ Hok Hroom) as Hroom_ok.
    destruct (Hroom_ok) as (_ & Hent & _). destruct (Hent u q Hq) as (_ & _ & _ & ? & ?).
    by eapply room_ok_update.
  - unfold on_video_off.
    destruct (on_set_video_shape false sid now p st)
      as [->|(m & u & room & q & _ & _ & Hroom & Hq & ->)]; [done|]. simpl.
    apply map_Forall_insert_2; [|done].
    pose proof (map_Forall_lookup_1 _ _ _ _ Hok Hroom) as Hroom_ok.
    destruct (Hroom_ok) as (_ & Hent & _). destruct (Hent u q Hq) as (_ & _ & _ & ? & ?).
    by eapply room_ok_update.
  - by apply handleUserLeave_keeps_rooms_ok.
  - unfold on_disconnect. destruct (socketToUser st !! sid); [|done].
    by apply handleUserLeave_keeps_rooms_ok.
Qed.

Lemma reachable_rooms_ok MAX st : reachable MAX st → rooms_ok MAX st.
Proof.
  induction 1 as [|st sid now ev _ IH].
  - apply map_Forall_empty.
  - by apply handle_keeps_rooms_ok.
Qed.

(** X1: in every reachable registry, whatever the configured maximum, an
    entry stored for user [u] in room [m] names [u] and [m] in its own
    fields, and neither identifier, nor its peerId, nor its username is the
    empty string. *)
Theorem reachable_entries_are_keyed
        (MAX : option Z) (st : Registry) (m u : string) (p : CallParticipant) :
  reachable MAX st →
  participant_of st m u = Some p →
  m ≠ "" ∧ u ≠ "" ∧ userId p = u ∧ meetingId p = m ∧ peerId p ≠ "" ∧ username p ≠ "".
Proof.
  intros Hreach (room & Hroom & Hp)%participant_of_Some.
  pose proof (map_Forall_lookup_1 _ _ _ _ (reachable_rooms_ok MAX st Hreach) Hroom)
    as (Hm & Hent & _).
  destruct (Hent u p Hp) as (? & ? & ? & ? & ?). done.
Qed.

Lemma reachable_entries_are_keyed_witness :
  userId entry_B = "B" ∧ meetingId entry_B = "r1".
Proof.
  assert (Hreach : reachable (Some 10%Z) two_users)
    by apply reachable_run, reachable_initial.
  assert (Hp : participant_of two_users "r1" "B" = Some entry_B)
    by (vm_compute; reflexivity).
  destruct (reachable_entries_are_keyed (Some 10%Z) two_users "r1" "B" entry_B Hreach Hp)
    as (_ & _ & Hu & Hm & _).
  split; [exact Hu | exact Hm].
Defined.

(** X2: in every reachable registry no room holds more participants than
    the configured maximum (none at all when that maximum is zero or
    negative). *)
Theorem reachable_room_within_capacity
        (n : Z) (st : Registry) (m : string) :
  reachable (Some n) st →
  (Z.of_nat (room_size st m) ≤ Z.max 0 n)%Z.
Proof.
  intros Hreach. unfold room_size.
  destruct (callRooms st !! m) as [room|] eqn:Hroom; simpl.
  - pose proof (map_Forall_lookup_1 _ _ _ _ (reachable_rooms_ok _ st Hreach) Hroom)
      as (_ & _ & Hcap & _).
    by apply Hcap.
  - rewrite map_size_empty. lia.
Qed.

Lemma reachable_room_within_capacity_witness :
  (Z.of_nat (room_size full_room "r1") ≤ Z.max 0 10)%Z.
Proof.
  apply (reachable_room_within_capacity 10 full_room "r1").
  apply reachable_run, reachable_initial.
Defined.

Lemma reachable_room_not_empty MAX st m :
  (∀ n, MAX = Some n → (1 ≤ n)%Z) →
  reachable MAX st →
  (is_Some (callRooms st !! m) ↔ size (default ∅ (callRooms st !! m)) ≠ 0).
Proof.
  intros Hmax Hreach.
  destruct (callRooms st !! m) as [room|] eqn:Hroom; simpl.
  - pose proof (map_Forall_lookup_1 _ _ _ _ (reachable_rooms_ok _ st Hreach) Hroom)
      as (_ & _ & _ & Hne).
    split; [|by eauto]. intros _. apply map_size_non_empty_iff. by apply Hne.
  - rewrite map_size_empty. split; [by intros [? [=]]|done].
Qed.

(** X3: when the configured maximum is at least one (or is not a number),
    no reachable registry, after any events including disconnects and
    status changes, holds a room without participants: a room is present
    exactly when its size is not zero. *)
Theorem reachable_room_present_iff_nonempty
        (MAX : option Z) (st : Registry) (m : string) :
  (∀ n, MAX = Some n → (1 ≤ n)%Z) →
  reachable MAX st →
  (is_Some (callRooms st !! m) ↔ room_size st m ≠ 0).
Proof.
  intros Hmax Hreach. unfold room_size.
  destruct (callRooms st !! m) as [room|] eqn:Hroom; simpl.
  - pose proof (map_Forall_lookup_1 _ _ _ _ (reachable_rooms_ok _ st Hreach) Hroom)
      as (_ & _ & _ & Hne).
    split; [|by eauto]. intros _. apply map_size_non_empty_iff. by apply Hne.
  - rewrite map_size_empty. split; [by intros [? [=]]|done].
Qed.

Lemma reachable_room_present_iff_nonempty_witness :
  is_Some (callRooms (run (Some 10%Z) join_join_leave initial) !! "r1")
  ↔ room_size (run (Some 10%Z) join_join_leave initial) "r1" ≠ 0.
Proof.
  apply (reachable_room_present_iff_nonempty (Some 10%Z)).
  - intros n [= <-]. lia.
  - apply reachable_run, reachable_initial.
Defined.

(** ** The statistics accessors *)

Lemma total_users_sum st :
  getTotalUsersInCalls st = sum_list (size <$> (snd <$> map_to_list (callRooms st))).
Proof.
  unfold getTotalUsersInCalls.
  assert (Hgen : ∀ (l : list (gmap string CallParticipant)) acc,
             foldl (λ total room, total + size room) acc l
             = acc + sum_list (size <$> l)).
  { induction l as [|room l IH]; intros acc; csimpl; [lia|].
    rewrite IH. unfold id. lia. }
  by rewrite Hgen.
Qed.

Lemma sum_list_bounds (lo hi : nat) (l : list nat) :
  Forall (λ x : nat, (lo ≤ x ≤ hi)%nat) l →
  (lo * length l ≤ sum_list l ≤ hi * length l)%nat.
Proof.
  induction 1 as [|x l Hx _ IH]; simpl; [lia|].
  unfold id in *. rewrite !Nat.mul_succ_r. lia.
Qed.

(** X4: in every reachable registry with a configured maximum [n] of at
    least one, the number of users reported by getTotalUsersInCalls lies
    between the number of rooms reported by getActiveCallsCount and [n]
    times that number. *)
Theorem stats_are_consistent (n : Z) (st : Registry) :
  (1 ≤ n)%Z →
  reachable (Some n) st →
  (getActiveCallsCount st ≤ getTotalUsersInCalls st)%nat
  ∧ (Z.of_nat (getTotalUsersInCalls st) ≤ n * Z.of_nat (getActiveCallsCount st))%Z.
Proof.
  intros Hn Hreach. rewrite total_users_sum. unfold getActiveCallsCount.
  pose proof (reachable_rooms_ok _ st Hreach) as Hok. unfold rooms_ok in Hok.
  rewrite <- length_map_to_list.
  assert (Hall : Forall (λ x : nat, (1 ≤ x ≤ Z.to_nat n)%nat)
                        (size <$> (snd <$> map_to_list (callRooms st)))).
  { rewrite <- list_fmap_compose. apply Forall_fmap, Forall_forall.
    intros [m room] Hin%elem_of_map_to_list. simpl.
    destruct (Hok m room Hin) as (_ & _ & Hcap & Hne).
    specialize (Hcap n eq_refl).
    assert (size room ≠ 0)
      by (apply map_size_non_empty_iff, Hne; by intros ? [= <-]).
    lia. }
  apply sum_list_bounds in Hall. rewrite !length_fmap in Hall. lia.
Qed.

Lemma stats_are_consistent_witness :
  (getActiveCallsCount two_users ≤ getTotalUsersInCalls two_users)%nat
  ∧ (Z.of_nat (getTotalUsersInCalls two_users)
     ≤ 10 * Z.of_nat (getActiveCallsCount two_users))%Z.
Proof.
  apply (stats_are_consistent 10 two_users).
  - lia.
  - apply reachable_run, reachable_initial.
Defined.

(** ** Room information *)

Lemma room_users_ids MAX m room :
  room_ok MAX m room →
  ru_userId <$> (room_user <$> (snd <$> map_to_list room)) = fst <$> map_to_list room.
Proof.
  intros (_ & Hent & _). rewrite <- !list_fmap_compose.
  apply list_fmap_ext. intros i [u p] Hin%list_elem_of_lookup_2%elem_of_map_to_list.
  simpl. by destruct (Hent u p Hin) as (_ & ? & _).
Qed.

(** X5: in every reachable registry, the information getCallRoomInfo
    returns for a room has a participant count equal to the number of users
    it lists; the listed userIds are the members of the room, each once;
    every listed user is the summary of the entry stored for that userId;
    and, when the configured maximum is at least one, the count is not
    zero. *)
Theorem room_info_lists_members
        (MAX : option Z) (st : Registry) (m : string) (info : RoomInfo) :
  reachable MAX st →
  getCallRoomInfo st m = Some info →
  ri_meetingId info = m
  ∧ ri_participants info = length (ri_users info)
  ∧ NoDup (ru_userId <$> ri_users info)
  ∧ (∀ u, u ∈ ru_userId <$> ri_users info ↔ u ∈ members st m)
  ∧ (∀ r, r ∈ ri_users info →
          ∃ p, participant_of st m (ru_userId r) = Some p ∧ r = room_user p)
  ∧ ((∀ n, MAX = Some n → (1 ≤ n)%Z) → ri_participants info ≠ 0).
Proof.
  intros Hreach. unfold getCallRoomInfo, members, participant_of.
  destruct (callRooms st !! m) as [room|] eqn:Hroom; [|done]. intros [= <-]. simpl.
  pose proof (map_Forall_lookup_1 _ _ _ _ (reachable_rooms_ok _ st Hreach) Hroom) as Hok.
  rewrite (room_users_ids MAX m room Hok).
  split; [done|]. split; [by rewrite !length_fmap, length_map_to_list|].
  split; [apply NoDup_fst_map_to_list|]. split; [|split].
  - intros u. rewrite elem_of_dom. split.
    + intros ([u' p] & -> & Hin%elem_of_map_to_list)%list_elem_of_fmap. by exists p.
    + intros [p Hp]. apply list_elem_of_fmap. exists (u, p).
      split; [done|]. by apply elem_of_map_to_list.
  - intros r (p & -> & ([u p'] & -> & Hin%elem_of_map_to_list)%list_elem_of_fmap)%list_elem_of_fmap.
    simpl in *. exists p'. split; [|done].
    destruct Hok as (_ & Hent & _). destruct (Hent u p' Hin) as (_ & -> & _). done.
  - intros Hmax. destruct Hok as (_ & _ & _ & Hne).
    apply map_size_non_empty_iff. by apply Hne.
Qed.

Lemma room_info_lists_members_witness :
  NoDup (ru_userId <$> ri_users
           (mkRoomInfo "r1" 2
              (room_user <$> (snd <$> map_to_list
                                (default ∅ (callRooms two_users !! "r1")))))).
Proof.
  refine (proj1 (proj2 (proj2
            (room_info_lists_members (Some 10%Z) two_users "r1" _ _ _)))).
  - apply reachable_run, reachable_initial.
  - vm_compute. reflexivity.
Defined.

(** X6: the room route answers 400 exactly when the meeting identifier is
    missing or empty; otherwise, on a reachable registry with a configured
    maximum of at least one, it answers 200 exactly when the room has at
    least one participant and 404 exactly when it has none. *)
Theorem room_route_answers
        (MAX : option Z) (st : Registry) (meetingId : option string) :
  (∀ n, MAX = Some n → (1 ≤ n)%Z) →
  reachable MAX st →
  (room_route_status (room_route meetingId st) = 400%Z
   ↔ truthy_string meetingId = None)
  ∧ (room_route_status (room_route meetingId st) = 200%Z
     ↔ ∃ m, truthy_string meetingId = Some m ∧ room_size st m ≠ 0)
  ∧ (room_route_status (room_route meetingId st) = 404%Z
     ↔ ∃ m, truthy_string meetingId = Some m ∧ room_size st m = 0).
Proof.
  intros Hmax Hreach. unfold room_route.
  destruct (truthy_string meetingId) as [m|]; simpl.
  - pose proof (reachable_room_not_empty MAX st m Hmax Hreach) as Hiff.
    unfold getCallRoomInfo, room_size.
    destruct (callRooms st !! m) as [room|] eqn:Hroom; simpl in *.
    + assert (size room ≠ 0) by (apply Hiff; eauto).
      split; [done|]. split.
      * split; [|done]. intros _. exists m. by rewrite Hroom.
      * split; [done|]. intros (? & [= <-] & Hsize). by rewrite Hroom in Hsize.
    + split; [done|]. split.
      * split; [done|]. intros (? & [= <-] & Hsize).
        rewrite Hroom in Hsize. simpl in Hsize. by rewrite map_size_empty in Hsize.
      * split; [|done]. intros _. exists m. rewrite Hroom. simpl.
        by rewrite map_size_empty.
  - split; [done|]. split; split; try done; by intros (? & [=] & _).
Qed.

Lemma room_route_answers_witness :
  room_route_status (room_route (Some "r1") two_users) = 200%Z
  ↔ ∃ m, truthy_string (Some "r1") = Some m ∧ room_size two_users m ≠ 0.
Proof.
  refine (proj1 (proj2 (room_route_answers (Some 10%Z) two_users (Some "r1") _ _))).
  - intros n [= <-]. lia.
  - apply reachable_run, reachable_initial.
Defined.

(** ** Accepted joins *)

Lemma joined_entry_connection sid now payload m u peer room0 :
  socketId (joined_entry sid now payload m u peer room0) = sid
  ∧ peerId (joined_entry sid now payload m u peer room0) = peer.
Proof. unfold joined_entry. by destruct (room0 !! u). Qed.

(** X7: a join that is not answered with an error, a first join and a
    reconnection alike, leaves the caller's connection indexed to the
    (meetingId, userId) of the request, and the entry stored for that user
    carries the caller's connection and the peerId of the request; the
    reply is the three calls join, peers-list to the caller, and peer-joined
    to the rest of the room with the username of the request (or
    "Anonymous"). *)
Theorem accepted_join_binds_connection
        (MAX : option Z) (sid : string) (now : Clock) (payload : JoinCallPayload)
        (st : Registry) :
  is_error_reply (on_join MAX sid now payload st).2 = false →
  ∃ m u peer p,
    truthy_string (jp_meetingId payload) = Some m
    ∧ truthy_string (jp_userId payload) = Some u
    ∧ truthy_string (jp_peerId payload) = Some peer
    ∧ socketToUser (on_join MAX sid now payload st).1 !! sid = Some (m, u)
    ∧ participant_of (on_join MAX sid now payload st).1 m u = Some p
    ∧ socketId p = sid ∧ peerId p = peer
    ∧ ∃ others ts,
        (on_join MAX sid now payload st).2
        = [socket_join sid m;
           socket_emit sid (PEERS_LIST m others (length others));
           socket_to_emit sid m
             (PEER_JOINED u peer (or_default (jp_username payload) "Anonymous") ts)].
Proof.
  intros Hok.
  destruct (on_join_shape MAX sid now payload st)
    as [[_ Heq]|(m & u & peer & Hm & Hu & Hp
                 & [(room & _ & _ & Heq)|[(_ & _ & Heq)|(_ & Heq)]])];
    rewrite Heq in Hok |- *; try discriminate.
  exists m, u, peer, (joined_entry sid now payload m u peer (default ∅ (callRooms st !! m))).
  do 3 (split; [done|]). simpl.
  split; [apply lookup_insert_eq|].
  split; [unfold participant_of; simpl; rewrite lookup_insert_eq; simpl;
          apply lookup_insert_eq|].
  destruct (joined_entry_connection sid now payload m u peer
                                    (default ∅ (callRooms st !! m))) as [-> ->].
  do 2 (split; [done|]). by eexists _, _.
Qed.

Lemma accepted_join_binds_connection_witness :
  ∃ m u peer p,
    truthy_string (jp_meetingId (join_as_payload "r1" "C" "pC")) = Some m
    ∧ truthy_string (jp_userId (join_as_payload "r1" "C" "pC")) = Some u
    ∧ truthy_string (jp_peerId (join_as_payload "r1" "C" "pC")) = Some peer
    ∧ socketToUser (on_join (Some 10%Z) "sC" tick (join_as_payload "r1" "C" "pC")
                            two_users).1 !! "sC" = Some (m, u)
    ∧ participant_of (on_join (Some 10%Z) "sC" tick (join_as_payload "r1" "C" "pC")
                              two_users).1 m u = Some p
    ∧ socketId p = "sC" ∧ peerId p = peer
    ∧ ∃ others ts,
        (on_join (Some 10%Z) "sC" tick (join_as_payload "r1" "C" "pC") two_users).2
        = [socket_join "sC" m;
           socket_emit "sC" (PEERS_LIST m others (length others));
           socket_to_emit "sC" m
             (PEER_JOINED u peer
                (or_default (jp_username (join_as_payload "r1" "C" "pC")) "Anonymous")
                ts)].
Proof.
  apply (accepted_join_binds_connection
           (Some 10%Z) "sC" tick (join_as_payload "r1" "C" "pC") two_users).
  vm_compute. reflexivity.
Defined.

(** X8: repeating a join, same connection and same payload, right after
    the first one leaves the registry as the first one left it, whether
    the first was accepted or refused. *)
Theorem join_twice_is_join_once
        (MAX : option Z) (sid : string) (now now' : Clock)
        (payload : JoinCallPayload) (st : Registry) :
  (on_join MAX sid now' payload (on_join MAX sid now payload st).1).1
  = (on_join MAX sid now payload st).1.
Proof.
  destruct (on_join_shape MAX sid now payload st)
    as [[Hbad ->]|(m & u & peer & Hm & Hu & Hp
                   & [(room & Hroom & Hfull & ->)|[(Hroom & Hfull & ->)|(Hfull & ->)]])];
    simpl.
  - by rewrite on_join_invalid.
  - by rewrite (on_join_full MAX sid now' payload st m u peer room).
  - by rewrite (on_join_full MAX sid now' payload _ m u peer ∅)
      by (done || apply lookup_insert_eq).
  - set (room0 := default ∅ (callRooms st !! m)).
    set (part := joined_entry sid now payload m u peer room0).
    set (st1 := mkRegistry _ _).
    assert (Hroom1 : callRooms st1 !! m = Some (<[u := part]> room0))
      by apply lookup_insert_eq.
    destruct (room_is_full MAX (<[u := part]> room0)) eqn:Hfull1.
    + by rewrite (on_join_full MAX sid now' payload st1 m u peer _ Hm Hu Hp Hroom1 Hfull1).
    + destruct (on_join_reconnect MAX sid now' payload st1 m u peer _ part
                                  Hm Hu Hp Hroom1 Hfull1) as [-> _];
        [apply lookup_insert_eq|].
      assert (with_connection part sid peer = part) as ->.
      { destruct (joined_entry_connection sid now payload m u peer room0) as [Hs Hpeer].
        fold part in Hs, Hpeer. destruct part; simpl in *. by subst. }
      unfold st1. simpl. by rewrite !insert_insert_eq.
Qed.

Lemma handleUserLeave_present sid now om ou st m u room part :
  truthy_string om = Some m → truthy_string ou = Some u →
  callRooms st !! m = Some room → room !! u = Some part →
  handleUserLeave sid now om ou st
  = (mkRegistry
       (if bool_decide (size (delete u room) = 0)
        then delete m (callRooms st)
        else <[m := delete u room]> (callRooms st))
       (delete sid (socketToUser st)),
     [socket_leave sid m;
      io_to_emit m (PEER_LEFT u (peerId part) (username part) (now 0))]).
Proof.
  intros Hm Hu Hroom Hpart. unfold handleUserLeave.
  by rewrite Hm, Hu, Hroom, Hpart.
Qed.

(** X9: a user who is not in the room joins, on a connection the index
    does not know, a room that is not full and not present while empty; a
    leave for that user on that connection then gives back the registry
    that was there before the join. *)
Theorem join_then_leave_restores_registry
        (MAX : option Z) (sid : string) (now now' : Clock)
        (payload : JoinCallPayload) (st : Registry) (m u : string) :
  truthy_string (jp_meetingId payload) = Some m →
  truthy_string (jp_userId payload) = Some u →
  is_Some (truthy_string (jp_peerId payload)) →
  participant_of st m u = None →
  room_is_full MAX (default ∅ (callRooms st !! m)) = false →
  callRooms st !! m ≠ Some ∅ →
  socketToUser st !! sid = None →
  (on_leave sid now' (mkLeaveCallPayload (Some m) (Some u))
            (on_join MAX sid now payload st).1).1 = st.
Proof.
  intros Hm Hu [peer Hp] Hnew Hfull Hne Hidx.
  assert (Hm0 : truthy_string (Some m) = Some m)
    by (apply truthy_string_nonempty; by apply truthy_string_Some in Hm as [_ ?]).
  assert (Hu0 : truthy_string (Some u) = Some u)
    by (apply truthy_string_nonempty; by apply truthy_string_Some in Hu as [_ ?]).
  destruct (on_join_shape MAX sid now payload st)
    as [[Hbad _]|(m' & u' & peer' & Hm' & Hu' & Hp'
                  & [(room & Hroom & Hfull' & _)|[(Hroom & Hfull' & _)|(_ & ->)]])].
  - destruct Hbad as [|[|]]; congruence.
  - assert (m' = m) as -> by congruence. rewrite Hroom in Hfull. simpl in Hfull. congruence.
  - assert (m' = m) as -> by congruence. rewrite Hroom in Hfull. simpl in Hfull. congruence.
  - assert (m' = m) as -> by congruence. assert (u' = u) as -> by congruence.
    set (room0 := default ∅ (callRooms st !! m)).
    assert (Hfresh : room0 !! u = None).
    { unfold room0. unfold participant_of in Hnew.
      destruct (callRooms st !! m); [done|apply lookup_empty]. }
    unfold on_leave.
    rewrite (handleUserLeave_present
               sid now' _ _ _ m u
               (<[u := joined_entry sid now payload m u peer' room0]> room0)
               (joined_entry sid now payload m u peer' room0) Hm0 Hu0)
      by apply lookup_insert_eq.
    simpl. rewrite delete_insert_eq, (delete_id room0) by done.
    rewrite (delete_insert_eq (socketToUser st)), (delete_id (socketToUser st)) by done.
    unfold room0.
    destruct (callRooms st !! m) as [room|] eqn:Hroom; simpl.
    + rewrite bool_decide_eq_false_2
        by (apply map_size_non_empty_iff; congruence).
      rewrite insert_insert_eq, insert_id by done. apply Registry_eta.
    + rewrite bool_decide_eq_true_2 by apply map_size_empty.
      rewrite delete_insert_eq, delete_id by done. apply Registry_eta.
Qed.

Lemma join_then_leave_restores_registry_witness :
  (on_leave "sC" tick (mkLeaveCallPayload (Some "r1") (Some "C"))
            (on_join (Some 10%Z) "sC" tick (join_as_payload "r1" "C" "pC") two_users).1).1
  = two_users.
Proof.
  apply (join_then_leave_restores_registry
           (Some 10%Z) "sC" tick tick (join_as_payload "r1" "C" "pC") two_users "r1" "C").
  - reflexivity.
  - reflexivity.
  - exists "pC". reflexivity.
  - vm_compute. reflexivity.
  - vm_compute. reflexivity.
  - vm_compute. discriminate.
  - vm_compute. reflexivity.
Defined.

(** ** The peers list *)

Lemma other_ids (l : list (string * CallParticipant)) (u : string) :
  Forall (λ kp : string * CallParticipant, userId kp.2 = kp.1) l →
  pe_userId <$> (peer_entry <$> filter (λ p, userId p ≠ u) (snd <$> l))
  = filter (λ k, k ≠ u) (fst <$> l).
Proof.
  induction 1 as [|[k p] l Hk _ IH]; [done|]. simpl in Hk. subst k. csimpl.
  rewrite !filter_cons. destruct (decide (userId p ≠ u)); csimpl; by rewrite IH.
Qed.

Lemma other_ids_of_room MAX m room u :
  room_ok MAX m room →
  pe_userId <$> otherParticipants room u
  = filter (λ k, k ≠ u) (fst <$> map_to_list room).
Proof.
  intros (_ & Hent & _). unfold otherParticipants. apply other_ids, Forall_forall.
  intros [k p] Hin%elem_of_map_to_list. simpl. by destruct (Hent k p Hin) as (_ & ? & _).
Qed.

(** X10: whenever a join on a reachable registry sends a peers-list, the
    count it carries is the length of the list, the listed userIds are the
    members of the room after the join other than the joining user, each
    once, and with the joining user they make up the whole room. *)
Theorem peers_list_names_the_others
        (MAX : option Z) (sid : string) (now : Clock) (payload : JoinCallPayload)
        (st : Registry) (m : string) (others : list PeerEntry) (count : nat) :
  reachable MAX st →
  socket_emit sid (PEERS_LIST m others count) ∈ (on_join MAX sid now payload st).2 →
  count = length others
  ∧ NoDup (pe_userId <$> others)
  ∧ (∀ v, v ∈ pe_userId <$> others
          ↔ v ∈ members (on_join MAX sid now payload st).1 m
            ∧ Some v ≠ truthy_string (jp_userId payload))
  ∧ S (length others) = room_size (on_join MAX sid now payload st).1 m.
Proof.
  intros Hreach Hin.
  pose proof (on_join_keeps_rooms_ok MAX sid now payload st (reachable_rooms_ok _ _ Hreach))
    as Hok'.
  destruct (on_join_shape MAX sid now payload st)
    as [[_ Heq]|(m' & u & peer & Hm & Hu & Hp
                 & [(room & _ & _ & Heq)|[(_ & _ & Heq)|(_ & Heq)]])];
    rewrite Heq in Hin, Hok' |- *; simpl in Hin.
  - by apply list_elem_of_singleton in Hin.
  - by apply list_elem_of_singleton in Hin.
  - by apply list_elem_of_singleton in Hin.
  - set (room' := <[u := _]> (default ∅ (callRooms st !! m'))) in *.
    apply elem_of_cons in Hin as [[=]|Hin].
    apply elem_of_cons in Hin as [[= -> -> ->]|Hin];
      [|by apply list_elem_of_singleton in Hin].
    assert (Hroom' : room_ok MAX m' room').
    { apply (map_Forall_lookup_1 _ _ m' room' Hok'). apply lookup_insert_eq. }
    assert (Hmem : members (mkRegistry (<[m' := room']> (callRooms st))
                                       (<[sid := (m', u)]> (socketToUser st))) m'
                   = dom room')
      by (unfold members; simpl; by rewrite lookup_insert_eq).
    assert (Hsize : room_size (mkRegistry (<[m' := room']> (callRooms st))
                                          (<[sid := (m', u)]> (socketToUser st))) m'
                    = size room')
      by (unfold room_size; simpl; by rewrite lookup_insert_eq).
    simpl. rewrite Hmem, Hsize, Hu.
    assert (Hids : ∀ v, v ∈ filter (λ k : string, k ≠ u) (fst <$> map_to_list room')
                        ↔ v ∈ dom room' ∧ Some v ≠ Some u).
    { intros v. rewrite list_elem_of_filter, elem_of_dom. split.
      - intros [Hv ([v' p] & -> & Hp')%list_elem_of_fmap]. simpl in *.
        apply elem_of_map_to_list in Hp'. split; [by eexists|congruence].
      - intros [[p Hv] Hne]. split; [congruence|].
        apply list_elem_of_fmap. exists (v, p). split; [done|].
        by apply elem_of_map_to_list. }
    assert (Hnodup : NoDup (filter (λ k : string, k ≠ u) (fst <$> map_to_list room')))
      by apply NoDup_filter, NoDup_fst_map_to_list.
    split; [done|]. rewrite (other_ids_of_room MAX m' room' u Hroom').
    split; [done|]. split; [done|].
    rewrite <- (length_fmap pe_userId), (other_ids_of_room MAX m' room' u Hroom').
    rewrite <- (size_list_to_set (C := gset string)) by done.
    assert (list_to_set (filter (λ k : string, k ≠ u) (fst <$> map_to_list room'))
            = dom room' ∖ ({[u]} : gset string)) as ->.
    { apply set_eq. intros v. rewrite elem_of_list_to_set, Hids.
      rewrite elem_of_difference, not_elem_of_singleton. split.
      - intros [? Hne]. split; [done|congruence].
      - intros [? Hne]. split; [done|congruence]. }
    rewrite size_difference, size_singleton, size_dom.
    + assert (size room' ≠ 0) by (apply map_size_non_empty_iff, insert_non_empty). lia.
    + apply singleton_subseteq_l, elem_of_dom. unfold room'. rewrite lookup_insert_eq. eauto.
Qed.

Lemma peers_list_names_the_others_witness :
  2 = length [peer_entry entry_A; peer_entry entry_B]
  ∧ NoDup (pe_userId <$> [peer_entry entry_A; peer_entry entry_B]).
Proof.
  assert (Hreach : reachable (Some 10%Z) two_users)
    by apply reachable_run, reachable_initial.
  destruct (peers_list_names_the_others
              (Some 10%Z) "sC" tick (join_as_payload "r1" "C" "pC") two_users "r1"
              [peer_entry entry_A; peer_entry entry_B] 2 Hreach)
    as (Hcount & Hnodup & _).
  - apply (bool_decide_unpack _). vm_compute. exact I.
  - split; [exact Hcount | exact Hnodup].
Defined.

(** ** Status events *)

Lemma keeps_presence_refl st : keeps_presence st st.
Proof.
  split; [done|]. split; [done|]. split; [done|].
  intros m u p Hp. exists p. by repeat split.
Qed.

Lemma keeps_presence_update st m u room p q :
  callRooms st !! m = Some room → room !! u = Some p → same_presence p q →
  keeps_presence st (mkRegistry (<[m := <[u := q]> room]> (callRooms st))
                                (socketToUser st)).
Proof.
  intros Hroom Hp Hsame. split; [done|]. simpl.
  assert (Hdom : dom (<[u := q]> room) = dom room)
    by (apply dom_insert_lookup_L; eauto).
  split; [apply dom_insert_lookup_L; eauto|]. split.
  - intros m'. unfold members. simpl. destruct (decide (m = m')) as [<-|Hne].
    + by rewrite lookup_insert_eq, Hroom.
    + by rewrite lookup_insert_ne.
  - intros m' u' p'. unfold participant_of. simpl.
    destruct (decide (m = m')) as [<-|Hne]; [|rewrite lookup_insert_ne by done; intros Hp';
      exists p'; by repeat split].
    rewrite lookup_insert_eq, Hroom. simpl.
    destruct (decide (u = u')) as [<-|Hneu].
    + rewrite lookup_insert_eq, Hp. intros [= <-]. by exists q.
    + rewrite lookup_insert_ne by done. intros Hp'. exists p'. by repeat split.
Qed.

(** X11: a signal, mute, unmute, video-on or video-off event never adds,
    removes or re-addresses a participant: the index, the set of rooms and
    the members of every room are unchanged, and every participant keeps
    its connection, identifiers, peerId, username and join time. *)
Theorem status_events_keep_presence
        (MAX : option Z) (sid : string) (now : Clock) (ev : Inbound) (st : Registry) :
  is_status_event ev = true →
  keeps_presence st (handle MAX sid now ev st).1.
Proof.
  intros Hev. destruct ev as [p|p|p|p|p|p|p|]; try discriminate; simpl;
    unfold on_mute, on_unmute, on_video_on, on_video_off.
  - rewrite on_signal_keeps_registry. apply keeps_presence_refl.
  - destruct (on_set_mute_shape true sid now p st)
      as [->|(m & u & room & q & _ & _ & Hroom & Hq & ->)];
      [apply keeps_presence_refl|]. by eapply keeps_presence_update.
  - destruct (on_set_mute_shape false sid now p st)
      as [->|(m & u & room & q & _ & _ & Hroom & Hq & ->)];
      [apply keeps_presence_refl|]. by eapply keeps_presence_update.
  - destruct (on_set_video_shape true sid now p st)
      as [->|(m & u & room & q & _ & _ & Hroom & Hq & ->)];
      [apply keeps_presence_refl|]. by eapply keeps_presence_update.
  - destruct (on_set_video_shape false sid now p st)
      as [->|(m & u & room & q & _ & _ & Hroom & Hq & ->)];
      [apply keeps_presence_refl|]. by eapply keeps_presence_update.
Qed.

Lemma status_events_keep_presence_witness :
  keeps_presence two_users
    (handle (Some 10%Z) "sB" tick (VideoOn (mkMutePayload (Some "r1") (Some "B")))
            two_users).1.
Proof.
  apply (status_events_keep_presence (Some 10%Z) "sB" tick
           (VideoOn (mkMutePayload (Some "r1") (Some "B"))) two_users).
  reflexivity.
Defined.

(** X12: a video-on or video-off event naming a participant that exists
    stores the requested value in its isVideoOn flag, leaves its isMuted
    flag and everything else as they were, and broadcasts one video-status
    event with that value to the whole room; when the room or the user does
    not exist, or an identifier is missing, the registry is unchanged and
    nothing is emitted. *)
Theorem video_sets_flag_and_broadcasts
        (MAX : option Z) (videoOn : bool) (sid : string) (now : Clock)
        (payload : MutePayload) (st : Registry) :
  (∀ m u room p,
      truthy_string (mp_meetingId payload) = Some m →
      truthy_string (mp_userId payload) = Some u →
      callRooms st !! m = Some room →
      room !! u = Some p →
      handle MAX sid now (video_event videoOn payload) st
      = (mkRegistry (<[m := <[u := with_isVideoOn p videoOn]> room]> (callRooms st))
                    (socketToUser st),
         [io_to_emit m (VIDEO_STATUS u (username p) videoOn (now 0))])
      ∧ isVideoOn <$> participant_of
                        (handle MAX sid now (video_event videoOn payload) st).1 m u
        = Some videoOn
      ∧ isMuted <$> participant_of
                      (handle MAX sid now (video_event videoOn payload) st).1 m u
        = Some (isMuted p))
  ∧ ((∀ m u,
         truthy_string (mp_meetingId payload) = Some m →
         truthy_string (mp_userId payload) = Some u →
         participant_of st m u = None) →
     handle MAX sid now (video_event videoOn payload) st = (st, [])).
Proof.
  assert (Hhandle : handle MAX sid now (video_event videoOn payload) st
                    = on_set_video videoOn sid now payload st) by by destruct videoOn.
  rewrite Hhandle. split.
  - intros m u room p Hm Hu Hroom Hp.
    destruct (on_set_video_shape videoOn sid now payload st)
      as [Hnone|(m' & u' & room' & p' & Hm' & Hu' & Hroom' & Hp' & ->)].
    + unfold on_set_video in Hnone. by rewrite Hm, Hu, Hroom, Hp in Hnone.
    + assert (m' = m) as -> by congruence. assert (u' = u) as -> by congruence.
      assert (room' = room) as -> by congruence. assert (p' = p) as -> by congruence.
      split; [done|]. unfold participant_of. simpl.
      rewrite lookup_insert_eq. simpl. by rewrite lookup_insert_eq.
  - intros Habsent.
    destruct (on_set_video_shape videoOn sid now payload st)
      as [->|(m & u & room & p & Hm & Hu & Hroom & Hp & _)]; [done|].
    specialize (Habsent m u Hm Hu). unfold participant_of in Habsent.
    rewrite Hroom in Habsent. simpl in Habsent. congruence.
Qed.

Lemma video_sets_flag_and_broadcasts_witness :
  handle (Some 10%Z) "sB" tick
         (video_event true (mkMutePayload (Some "r1") (Some "B"))) two_users
  = (mkRegistry
       (<["r1" := <["B" := with_isVideoOn entry_B true]>
                    (default ∅ (callRooms two_users !! "r1"))]> (callRooms two_users))
       (socketToUser two_users),
     [io_to_emit "r1" (VIDEO_STATUS "B" "B" true (tick 0))])
  ∧ handle (Some 10%Z) "sB" tick
           (video_event false (mkMutePayload (Some "r1") (Some "Z"))) two_users
    = (two_users, []).
Proof.
  split.
  - refine (proj1 (proj1 (video_sets_flag_and_broadcasts
                            (Some 10%Z) true "sB" tick
                            (mkMutePayload (Some "r1") (Some "B")) two_users)
                         "r1" "B" (default ∅ (callRooms two_users !! "r1")) entry_B
                         _ _ _ _)).
    + reflexivity.
    + reflexivity.
    + vm_compute. reflexivity.
    + vm_compute. reflexivity.
  - refine (proj2 (video_sets_flag_and_broadcasts
                     (Some 10%Z) false "sB" tick
                     (mkMutePayload (Some "r1") (Some "Z")) two_users) _).
    intros m u [= <-] [= <-]. vm_compute. reflexivity.
Defined.

(** ** Mute and video are independent *)

Lemma alter_present (f : CallParticipant → CallParticipant)
      (room : gmap string CallParticipant) u p :
  room !! u = Some p → <[u := f p]> room = alter f u room.
Proof.
  intros Hp. apply map_eq. intros v. destruct (decide (u = v)) as [<-|Hne].
  - by rewrite lookup_insert_eq, lookup_alter_eq, Hp.
  - by rewrite lookup_insert_ne, lookup_alter_ne.
Qed.

Lemma alter_room_present (F : gmap string CallParticipant → gmap string CallParticipant)
      (rooms : gmap string (gmap string CallParticipant)) m room :
  rooms !! m = Some room → <[m := F room]> rooms = alter F m rooms.
Proof.
  intros Hroom. apply map_eq. intros v. destruct (decide (m = v)) as [<-|Hne].
  - by rewrite lookup_insert_eq, lookup_alter_eq, Hroom.
  - by rewrite lookup_insert_ne, lookup_alter_ne.
Qed.

(** The registry after a mute or unmute, as an in-place update. *)
Lemma on_set_mute_alter muted sid now payload st :
  (on_set_mute muted sid now payload st).1
  = match truthy_string (mp_meetingId payload), truthy_string (mp_userId payload) with
    | Some m, Some u =>
        mkRegistry (alter (alter (λ p, with_isMuted p muted) u) m (callRooms st))
                   (socketToUser st)
    | _, _ => st
    end.
Proof.
  unfold on_set_mute.
  destruct (truthy_string (mp_meetingId payload)) as [m|]; [|done].
  destruct (truthy_string (mp_userId payload)) as [u|]; [|done].
  destruct (callRooms st !! m) as [room|] eqn:Hroom.
  - destruct (room !! u) as [p|] eqn:Hp; simpl.
    + by rewrite (alter_present (λ p, with_isMuted p muted) room u p Hp),
         (alter_room_present _ _ m room Hroom).
    + rewrite <- (alter_room_present _ _ m room Hroom), alter_id' by done.
      by rewrite insert_id, Registry_eta.
  - simpl. by rewrite alter_id', Registry_eta.
Qed.

Lemma on_set_video_alter videoOn sid now payload st :
  (on_set_video videoOn sid now payload st).1
  = match truthy_string (mp_meetingId payload), truthy_string (mp_userId payload) with
    | Some m, Some u =>
        mkRegistry (alter (alter (λ p, with_isVideoOn p videoOn) u) m (callRooms st))
                   (socketToUser st)
    | _, _ => st
    end.
Proof.
  unfold on_set_video.
  destruct (truthy_string (mp_meetingId payload)) as [m|]; [|done].
  destruct (truthy_string (mp_userId payload)) as [u|]; [|done].
  destruct (callRooms st !! m) as [room|] eqn:Hroom.
  - destruct (room !! u) as [p|] eqn:Hp; simpl.
    + by rewrite (alter_present (λ p, with_isVideoOn p videoOn) room u p Hp),
         (alter_room_present _ _ m room Hroom).
    + rewrite <- (alter_room_present _ _ m room Hroom), alter_id' by done.
      by rewrite insert_id, Registry_eta.
  - simpl. by rewrite alter_id', Registry_eta.
Qed.

(** X13: the mute flag and the video flag are independent: a mute (or
    unmute) event and a video-on (or video-off) event, for any users and
    on any connections, leave the same registry in either order. *)
Theorem mute_and_video_commute
        (muted videoOn : bool) (sid sid' : string) (now now' : Clock)
        (pm pv : MutePayload) (st : Registry) :
  (on_set_video videoOn sid' now' pv (on_set_mute muted sid now pm st).1).1
  = (on_set_mute muted sid now pm (on_set_video videoOn sid' now' pv st).1).1.
Proof.
  rewrite !on_set_video_alter, !on_set_mute_alter.
  destruct (truthy_string (mp_meetingId pm)) as [m|]; [|done].
  destruct (truthy_string (mp_userId pm)) as [u|];
    [|by destruct (truthy_string (mp_meetingId pv))].
  destruct (truthy_string (mp_meetingId pv)) as [m'|]; [|done].
  destruct (truthy_string (mp_userId pv)) as [u'|]; [|done].
  simpl. f_equal.
  destruct (decide (m' = m)) as [->|Hm]; [|by apply alter_alter_ne].
  rewrite !alter_alter_eq. apply alter_ext. intros room _. simpl.
  destruct (decide (u' = u)) as [->|Hu]; [|by apply alter_alter_ne].
  rewrite !alter_alter_eq. by apply alter_ext.
Qed.

(** ** Leave *)

(** X14: the cleanup shared by leave and disconnect touches nobody else:
    every participant other than the one it names is in the registry
    afterwards exactly as before, and the index entry of every connection
    other than the calling one is unchanged. *)
Theorem leave_touches_only_the_named_user
        (sid : string) (now : Clock) (meeting user : option string)
        (st : Registry) (m' u' sid' : string) :
  (truthy_string meeting, truthy_string user) ≠ (Some m', Some u') →
  sid' ≠ sid →
  participant_of (handleUserLeave sid now meeting user st).1 m' u'
  = participant_of st m' u'
  ∧ socketToUser (handleUserLeave sid now meeting user st).1 !! sid'
    = socketToUser st !! sid'.
Proof.
  intros Hother Hsid.
  destruct (handleUserLeave_cases sid now meeting user st)
    as [[-> _]|(m & u & room & part & Hm & Hu & Hroom & Hpart & ->)]; [done|].
  simpl. split; [|by rewrite lookup_delete_ne].
  unfold participant_of.
  destruct (decide (m = m')) as [<-|Hm'].
  - assert (Hu' : u ≠ u') by (intros <-; apply Hother; by rewrite Hm, Hu).
    rewrite Hroom. simpl. case_bool_decide as Hsize.
    + rewrite lookup_delete_eq. simpl.
      apply map_size_empty_iff in Hsize.
      by rewrite <- (lookup_delete_ne room u u'), Hsize, lookup_empty.
    + rewrite lookup_insert_eq. simpl. by rewrite lookup_delete_ne.
  - case_bool_decide; simpl.
    + by rewrite lookup_delete_ne.
    + by rewrite lookup_insert_ne.
Qed.

Lemma leave_touches_only_the_named_user_witness :
  participant_of (handleUserLeave "sA" tick (Some "r1") (Some "A") two_users).1 "r1" "B"
  = participant_of two_users "r1" "B"
  ∧ socketToUser (handleUserLeave "sA" tick (Some "r1") (Some "A") two_users).1 !! "sB"
    = socketToUser two_users !! "sB".
Proof.
  apply (leave_touches_only_the_named_user "sA" tick (Some "r1") (Some "A") two_users
                                           "r1" "B" "sB").
  - vm_compute. discriminate.
  - discriminate.
Defined.

(** ** Error replies *)

(** X15: a signal whose required fields are present is answered with
    ROOM_NOT_FOUND exactly when the room does not exist and with
    USER_NOT_FOUND exactly when the room exists and the target is not in
    it; whatever the payload, a signal leaves the registry as it is and
    issues exactly one Socket.IO call. *)
Theorem signal_failure_codes
        (sid : string) (payload : SignalPayload) (st : Registry) (m to : string) :
  truthy_string (sp_meetingId payload) = Some m →
  truthy_string (sp_toUserId payload) = Some to →
  truthy (sp_signal payload) = true →
  ((on_signal sid payload st).2
     = [socket_emit sid (ERROR "Call room not found" "ROOM_NOT_FOUND")]
   ↔ callRooms st !! m = None)
  ∧ ((on_signal sid payload st).2
       = [socket_emit sid (ERROR "Target user not found in call" "USER_NOT_FOUND")]
     ↔ is_Some (callRooms st !! m) ∧ participant_of st m to = None)
  ∧ (on_signal sid payload st).1 = st
  ∧ length (on_signal sid payload st).2 = 1.
Proof.
  intros Hm Hto Hsig. unfold on_signal, participant_of. rewrite Hm, Hto, Hsig.
  destruct (callRooms st !! m) as [room|]; simpl.
  - destruct (room !! to) as [target|]; simpl.
    + split; [by split|]. split; [|done]. split; [done|by intros [_ ?]].
    + split; [by split|]. split; [|done]. split; [by eauto|done].
  - split; [by split|]. split; [|done]. split; [done|by intros [[? [=]] _]].
Qed.

Lemma signal_failure_codes_witness :
  (on_signal "sB" (mkSignalPayload (Some "r1") None (Some "Z") None None
                                   (JsString "sdp") (Some "offer")) two_users).2
  = [socket_emit "sB" (ERROR "Target user not found in call" "USER_NOT_FOUND")].
Proof.
  refine (proj2 (proj1 (proj2 (signal_failure_codes
                   "sB" (mkSignalPayload (Some "r1") None (Some "Z") None None
                                         (JsString "sdp") (Some "offer"))
                   two_users "r1" "Z" _ _ _))) _).
  - reflexivity.
  - reflexivity.
  - reflexivity.
  - split; [eexists|]; vm_compute; reflexivity.
Defined.

(** X16: an error event is never broadcast: whenever a handler issues a
    call that carries an error event, that call is the handler's only one
    and it is addressed to the calling connection; mute, unmute, video,
    leave and disconnect never issue one. *)
Theorem errors_go_to_the_caller_only
        (MAX : option Z) (sid : string) (now : Clock) (ev : Inbound)
        (st : Registry) (e : Effect) :
  e ∈ (handle MAX sid now ev st).2 →
  carries_error e = true →
  (handle MAX sid now ev st).2 = [e]
  ∧ (∃ message code, e = socket_emit sid (ERROR message code))
  ∧ ((∃ payload, ev = Join payload) ∨ (∃ payload, ev = Signal payload)).
Proof.
  intros Hin Herr. destruct ev as [p|p|p|p|p|p|p|]; simpl in Hin |- *;
    unfold on_mute, on_unmute, on_video_on, on_video_off, on_leave, on_disconnect in *.
  - destruct (on_join_shape MAX sid now p st)
      as [[_ Heq]|(m & u & peer & _ & _ & _
                   & [(room & _ & _ & Heq)|[(_ & _ & Heq)|(_ & Heq)]])];
      rewrite Heq in Hin |- *; simpl in Hin.
    + apply list_elem_of_singleton in Hin as ->. by eauto 10.
    + apply list_elem_of_singleton in Hin as ->. by eauto 10.
    + apply list_elem_of_singleton in Hin as ->. by eauto 10.
    + apply elem_of_cons in Hin as [->|Hin]; [done|].
      apply elem_of_cons in Hin as [->|Hin]; [done|].
      by apply list_elem_of_singleton in Hin as ->.
  - unfold on_signal in *.
    destruct (truthy_string (sp_meetingId p)) as [m|];
      [|apply list_elem_of_singleton in Hin as ->; by eauto 10].
    destruct (truthy_string (sp_toUserId p)) as [u|];
      [|apply list_elem_of_singleton in Hin as ->; by eauto 10].
    destruct (truthy (sp_signal p));
      [|apply list_elem_of_singleton in Hin as ->; by eauto 10].
    destruct (callRooms st !! m) as [room|];
      [|apply list_elem_of_singleton in Hin as ->; by eauto 10].
    destruct (room !! u) as [target|];
      [|apply list_elem_of_singleton in Hin as ->; by eauto 10].
    by apply list_elem_of_singleton in Hin as ->.
  - destruct (on_set_mute_shape true sid now p st)
      as [Heq|(m & u & room & q & _ & _ & _ & _ & Heq)]; rewrite Heq in Hin;
      simpl in Hin; [by apply elem_of_nil in Hin|].
    by apply list_elem_of_singleton in Hin as ->.
  - destruct (on_set_mute_shape false sid now p st)
      as [Heq|(m & u & room & q & _ & _ & _ & _ & Heq)]; rewrite Heq in Hin;
      simpl in Hin; [by apply elem_of_nil in Hin|].
    by apply list_elem_of_singleton in Hin as ->.
  - destruct (on_set_video_shape true sid now p st)
      as [Heq|(m & u & room & q & _ & _ & _ & _ & Heq)]; rewrite Heq in Hin;
      simpl in Hin; [by apply elem_of_nil in Hin|].
    by apply list_elem_of_singleton in Hin as ->.
  - destruct (on_set_video_shape false sid now p st)
      as [Heq|(m & u & room & q & _ & _ & _ & _ & Heq)]; rewrite Heq in Hin;
      simpl in Hin; [by apply elem_of_nil in Hin|].
    by apply list_elem_of_singleton in Hin as ->.
  - destruct (handleUserLeave_cases sid now (lp_meetingId p) (lp_userId p) st)
      as [[Heq _]|(m & u & room & part & _ & _ & _ & _ & Heq)]; rewrite Heq in Hin;
      simpl in Hin; [by apply elem_of_nil in Hin|].
    apply elem_of_cons in Hin as [->|Hin]; [done|].
    by apply list_elem_of_singleton in Hin as ->.
  - destruct (socketToUser st !! sid) as [info|]; [|by apply elem_of_nil in Hin].
    destruct (handleUserLeave_cases sid now (Some info.1) (Some info.2) st)
      as [[Heq _]|(m & u & room & part & _ & _ & _ & _ & Heq)]; rewrite Heq in Hin;
      simpl in Hin; [by apply elem_of_nil in Hin|].
    apply elem_of_cons in Hin as [->|Hin]; [done|].
    by apply list_elem_of_singleton in Hin as ->.
Qed.

Lemma errors_go_to_the_caller_only_witness :
  (handle (Some 10%Z) "s10" tick (join_as "r1" "u10" "p10") full_room).2
  = [socket_emit "s10" (ERROR "Call is full (maximum 10 participants)" "ROOM_FULL")].
Proof.
  refine (proj1 (errors_go_to_the_caller_only
                   (Some 10%Z) "s10" tick (join_as "r1" "u10" "p10") full_room
                   (socket_emit "s10"
                      (ERROR "Call is full (maximum 10 participants)" "ROOM_FULL"))
                   _ _)).
  - apply (bool_decide_unpack _). vm_compute. exact I.
  - reflexivity.
Defined.

(** ** First joins *)

(** X17: a join of a user who is not in the room, with its required fields
    present and the room below the maximum, stores an entry that is muted,
    has the camera off, carries the caller's connection, the peerId of the
    request, the first clock reading as join time, and the requested
    username or "Anonymous" when that is missing or empty; the room grows
    by one and every other participant of the room is untouched. *)
Theorem first_join_stores_muted_entry
        (MAX : option Z) (sid : string) (now : Clock) (payload : JoinCallPayload)
        (st : Registry) (m u peer : string) :
  truthy_string (jp_meetingId payload) = Some m →
  truthy_string (jp_userId payload) = Some u →
  truthy_string (jp_peerId payload) = Some peer →
  participant_of st m u = None →
  room_is_full MAX (default ∅ (callRooms st !! m)) = false →
  participant_of (on_join MAX sid now payload st).1 m u
  = Some (mkCallParticipant sid u m peer
                            (or_default (jp_username payload) "Anonymous")
                            true false (now 0))
  ∧ room_size (on_join MAX sid now payload st).1 m = S (room_size st m)
  ∧ (∀ u', u' ≠ u →
           participant_of (on_join MAX sid now payload st).1 m u'
           = participant_of st m u').
Proof.
  intros Hm Hu Hp Hnew Hfull.
  assert (Hfresh : default ∅ (callRooms st !! m) !! u = None).
  { unfold participant_of in Hnew.
    destruct (callRooms st !! m); [done|apply lookup_empty]. }
  destruct (on_join_shape MAX sid now payload st)
    as [[Hbad _]|(m' & u' & peer' & Hm' & Hu' & Hp'
                  & [(room & Hroom & Hfull' & _)|[(Hroom & Hfull' & _)|(_ & ->)]])].
  - destruct Hbad as [|[|]]; congruence.
  - assert (m' = m) as -> by congruence. rewrite Hroom in Hfull. simpl in Hfull. congruence.
  - assert (m' = m) as -> by congruence. rewrite Hroom in Hfull. simpl in Hfull. congruence.
  - assert (m' = m) as -> by congruence. assert (u' = u) as -> by congruence.
    assert (peer' = peer) as -> by congruence.
    unfold participant_of, room_size, joined_entry. simpl.
    rewrite Hfresh, lookup_insert_eq. simpl. rewrite lookup_insert_eq.
    split; [done|]. split; [by apply map_size_insert_None|].
    intros v Hv. rewrite lookup_insert_ne by done.
    by destruct (callRooms st !! m).
Qed.

Lemma first_join_stores_muted_entry_witness :
  participant_of (on_join (Some 10%Z) "sC" tick
                          (mkJoinCallPayload (Some "r1") (Some "C") (Some "pC") None)
                          two_users).1 "r1" "C"
  = Some (mkCallParticipant "sC" "C" "r1" "pC" "Anonymous" true false (tick 0)).
Proof.
  refine (proj1 (first_join_stores_muted_entry
                   (Some 10%Z) "sC" tick
                   (mkJoinCallPayload (Some "r1") (Some "C") (Some "pC") None)
                   two_users "r1" "C" "pC" _ _ _ _ _)).
  - reflexivity.
  - reflexivity.
  - reflexivity.
  - vm_compute. reflexivity.
  - vm_compute. reflexivity.
Defined.

(** ** The error middleware *)

(** X18: the response to an error made by createError carries the status
    code and the message it was made with, except that a status code of
    zero is sent as 500 and an empty message as "Internal Server Error";
    success is false; the stack is part of the body exactly when NODE_ENV
    is not "production" and the error has one; and createError marks the
    error "error" exactly when the status code is at least 500 and "fail"
    exactly when it is below. *)
Theorem errorHandler_sends_what_createError_made
        (NODE_ENV stack : option string) (message : string) (statusCode : Z) :
  resp_status (errorHandler NODE_ENV (createError stack message statusCode))
  = (if decide (statusCode = 0) then 500 else statusCode)%Z
  ∧ resp_message (errorHandler NODE_ENV (createError stack message statusCode))
    = (if decide (message = "") then "Internal Server Error" else message)
  ∧ resp_success (errorHandler NODE_ENV (createError stack message statusCode)) = false
  ∧ (is_Some (resp_stack (errorHandler NODE_ENV (createError stack message statusCode)))
     ↔ NODE_ENV ≠ Some "production" ∧ is_Some stack)
  ∧ (err_status (createError stack message statusCode) = Some "error"
     ↔ (500 ≤ statusCode)%Z)
  ∧ (err_status (createError stack message statusCode) = Some "fail"
     ↔ (statusCode < 500)%Z)
  ∧ err_statusCode (createError stack message statusCode) = Some statusCode
  ∧ err_message (createError stack message statusCode) = message.
Proof.
  unfold errorHandler, createError, or_default, truthy_string. simpl.
  split; [|split; [|split; [done|split; [|split; [|split; [|done]]]]]].
  - destruct (Z.eqb_spec statusCode 0); by case_decide.
  - destruct (String.eqb_spec message ""); by case_decide.
  - case_bool_decide as Henv; split.
    + by intros [? [=]].
    + by intros [? _].
    + by intros ?.
    + by intros [_ ?].
  - by case_bool_decide.
  - case_bool_decide; split; (done || lia).
Qed.

(** ** The total number of users along events *)

Lemma total_users_delete rooms idx m :
  getTotalUsersInCalls (mkRegistry (delete m rooms) idx)
  + size (default ∅ (rooms !! m))
  = getTotalUsersInCalls (mkRegistry rooms idx).
Proof.
  rewrite !total_users_sum. simpl.
  destruct (rooms !! m) as [room|] eqn:Hroom; simpl.
  - rewrite <- (map_to_list_delete rooms m room Hroom). csimpl. apply Nat.add_comm.
  - rewrite delete_id by done. rewrite map_size_empty. lia.
Qed.

Lemma total_users_insert rooms idx m room' :
  getTotalUsersInCalls (mkRegistry (<[m := room']> rooms) idx)
  + size (default ∅ (rooms !! m))
  = getTotalUsersInCalls (mkRegistry rooms idx) + size room'.
Proof.
  rewrite <- (total_users_delete rooms idx m).
  rewrite <- (insert_delete_eq rooms), !total_users_sum. simpl.
  rewrite map_to_list_insert by apply lookup_delete_eq. csimpl. unfold id. lia.
Qed.

(** X19: every event changes at most one room, and getTotalUsersInCalls
    moves by exactly the change in the size of that room: for some room
    [m], all other rooms are as before and the total after plus the old
    size of [m] equals the total before plus the new size of [m]. *)
Theorem total_users_follows_one_room
        (MAX : option Z) (sid : string) (now : Clock) (ev : Inbound) (st : Registry) :
  ∃ m,
    (∀ m', m' ≠ m →
           callRooms (handle MAX sid now ev st).1 !! m' = callRooms st !! m')
    ∧ getTotalUsersInCalls (handle MAX sid now ev st).1 + room_size st m
      = getTotalUsersInCalls st + room_size (handle MAX sid now ev st).1 m.
Proof.
  assert (Hsame : ∃ m, (∀ m', m' ≠ m → callRooms st !! m' = callRooms st !! m')
                       ∧ getTotalUsersInCalls st + room_size st m
                         = getTotalUsersInCalls st + room_size st m)
    by by exists "".
  assert (Hins : ∀ m room' idx,
             ∃ m0, (∀ m', m' ≠ m0 →
                          <[m := room']> (callRooms st) !! m' = callRooms st !! m')
                   ∧ getTotalUsersInCalls (mkRegistry (<[m := room']> (callRooms st)) idx)
                     + room_size st m0
                     = getTotalUsersInCalls st
                       + room_size (mkRegistry (<[m := room']> (callRooms st)) idx) m0).
  { intros m room' idx. exists m. split; [by intros; rewrite lookup_insert_ne|].
    unfold room_size. simpl. rewrite lookup_insert_eq. simpl.
    rewrite total_users_insert. by destruct st. }
  assert (Hdel : ∀ m idx,
             ∃ m0, (∀ m', m' ≠ m0 → delete m (callRooms st) !! m' = callRooms st !! m')
                   ∧ getTotalUsersInCalls (mkRegistry (delete m (callRooms st)) idx)
                     + room_size st m0
                     = getTotalUsersInCalls st
                       + room_size (mkRegistry (delete m (callRooms st)) idx) m0).
  { intros m idx. exists m. split; [by intros; rewrite lookup_delete_ne|].
    unfold room_size. simpl. rewrite lookup_delete_eq. simpl.
    rewrite total_users_delete, map_size_empty.
    unfold getTotalUsersInCalls. simpl. lia. }
  assert (Hleave : ∀ om ou,
             ∃ m, (∀ m', m' ≠ m →
                         callRooms (handleUserLeave sid now om ou st).1 !! m'
                         = callRooms st !! m')
                  ∧ getTotalUsersInCalls (handleUserLeave sid now om ou st).1
                    + room_size st m
                    = getTotalUsersInCalls st
                      + room_size (handleUserLeave sid now om ou st).1 m).
  { intros om ou.
    destruct (handleUserLeave_cases sid now om ou st)
      as [[-> _]|(m & u & room & part & _ & _ & _ & _ & ->)]; [done|].
    simpl. case_bool_decide; [apply Hdel|apply Hins]. }
  destruct ev as [p|p|p|p|p|p|p|]; simpl;
    unfold on_mute, on_unmute, on_video_on, on_video_off, on_leave, on_disconnect.
  - destruct (on_join_shape MAX sid now p st)
      as [[_ ->]|(m & u & peer & _ & _ & _
                  & [(room & _ & _ & ->)|[(_ & _ & ->)|(_ & ->)]])];
      simpl; try done; apply Hins.
  - by rewrite on_signal_keeps_registry.
  - destruct (on_set_mute_shape true sid now p st)
      as [->|(m & u & room & q & _ & _ & _ & _ & ->)]; [done|]. apply Hins.
  - destruct (on_set_mute_shape false sid now p st)
      as [->|(m & u & room & q & _ & _ & _ & _ & ->)]; [done|]. apply Hins.
  - destruct (on_set_video_shape true sid now p st)
      as [->|(m & u & room & q & _ & _ & _ & _ & ->)]; [done|]. apply Hins.
  - destruct (on_set_video_shape false sid now p st)
      as [->|(m & u & room & q & _ & _ & _ & _ & ->)]; [done|]. apply Hins.
  - apply Hleave.
  - destruct (socketToUser st !! sid); [apply Hleave|done].
Qed.
